(** * protoc-gen-doc: the request-configuration pipeline of [plugin.go]

    A shallow embedding of [ParseOptions], [excludeUnwantedProtos],
    [groupProtosByDirectory] and [Generate], with the Go library functions
    they call, and the properties of the specification stated over them.

    Go strings are byte sequences: they are [string]s here, one [ascii] per
    byte.  A Go [map] is a [gmap]; the order in which [range] visits it is
    not fixed by the language, so it is an explicit argument of [Generate]. *)

From stdpp Require Import gmap strings list fin_maps.
From Stdlib Require Import Ascii String.

Local Open Scope string_scope.

(* stdpp keeps [simpl] from unfolding [String.append]; the proofs below
   compute with it. *)
#[local] Arguments String.append !_ _ / : simpl nomatch.

(** ** The Go library functions used by the plugin *)

Module GoLib.

(** [strings.Contains(s, sep)], for the one-byte separators of the source. *)
Fixpoint Contains (s : string) (sep : ascii) : bool :=
  match s with
  | EmptyString => false
  | String c s' => if Ascii.eqb c sep then true else Contains s' sep
  end.

(** [strings.Split(s, sep)], for a one-byte separator: the pieces between
    the occurrences of [sep], one more piece than there are occurrences. *)
Fixpoint Split (s : string) (sep : ascii) : list string :=
  match s with
  | EmptyString => [EmptyString]
  | String c s' =>
      if Ascii.eqb c sep then EmptyString :: Split s' sep
      else match Split s' sep with
           | [] => [String c EmptyString]
           | piece :: pieces => String c piece :: pieces
           end
  end.

(** [strings.Join(pieces, sep)]. *)
Fixpoint Join (pieces : list string) (sep : ascii) : string :=
  match pieces with
  | [] => EmptyString
  | [piece] => piece
  | piece :: rest => piece ++ String sep (Join rest sep)
  end.

(** What follows the first piece in the joined text: nothing, or a
    separator and the remaining pieces. *)
Definition tailOf (pieces : list string) (sep : ascii) : string :=
  match pieces with
  | [] => ""
  | _ :: _ => String sep (Join pieces sep)
  end.

(** [strings.HasPrefix(s, prefix)]. *)
Definition HasPrefix (s pre : string) : bool := String.prefix pre s.

Definition bytes (s : string) : list ascii := list_ascii_of_string s.

(** The text after the last occurrence of [sep] (all of [s] when there is
    none), and the text up to and including it. *)
Fixpoint afterLast (s : string) (sep : ascii) : string :=
  match s with
  | EmptyString => EmptyString
  | String c s' =>
      if Contains s' sep then afterLast s' sep
      else if Ascii.eqb c sep then s' else s
  end.

Fixpoint uptoLast (s : string) (sep : ascii) : string :=
  match s with
  | EmptyString => EmptyString
  | String c s' =>
      if Contains s' sep then String c (uptoLast s' sep)
      else if Ascii.eqb c sep then String c EmptyString else EmptyString
  end.

(** The loop of [path.Base] that strips trailing slashes. *)
Fixpoint stripTrailingSlashes (s : string) : string :=
  match s with
  | EmptyString => EmptyString
  | String c s' =>
      match stripTrailingSlashes s' with
      | EmptyString => if Ascii.eqb c "/" then EmptyString else String c EmptyString
      | rest => String c rest
      end
  end.

(** [path.Base(p)]: ["."] for the empty path, ["/"] for a path of slashes
    only, otherwise the last element once trailing slashes are removed. *)
Definition path_Base (p : string) : string :=
  if decide (p = "") then "."
  else
    let p := stripTrailingSlashes p in
    let p := afterLast p "/" in
    if decide (p = "") then "/" else p.

(** [filepath.Split(p)] where the path separator is the slash and there
    are no volume names: the split is right after the last slash. *)
Definition filepath_Split (p : string) : string * string :=
  (uptoLast p "/", afterLast p "/").

(** [filepath.Clean], by its documented rules: runs of slashes count as
    one, [.] elements go, [..] removes the element before it (and goes
    itself at the root), and the empty result is [.]. *)
Fixpoint cleanElements (rooted : bool) (elems stack : list string) : list string :=
  match elems with
  | [] => reverse stack
  | e :: rest =>
      if decide (e = "") then cleanElements rooted rest stack
      else if decide (e = ".") then cleanElements rooted rest stack
      else if decide (e = "..") then
        match stack with
        | top :: below =>
            if decide (top = "..") then cleanElements rooted rest (e :: stack)
            else cleanElements rooted rest below
        | [] =>
            if rooted then cleanElements rooted rest stack
            else cleanElements rooted rest (e :: stack)
        end
      else cleanElements rooted rest (e :: stack)
  end.

Definition filepath_Clean (p : string) : string :=
  let rooted := HasPrefix p "/" in
  let body := Join (cleanElements rooted (Split p "/") []) "/" in
  let out := if rooted then String "/" body else body in
  if decide (out = "") then "." else out.

(** [filepath.Join(dir, file)]: the first non-empty element onwards,
    joined by slashes and cleaned; the empty string when both are empty. *)
Definition filepath_Join (dir file : string) : string :=
  if decide (dir = "") then
    (if decide (file = "") then "" else filepath_Clean file)
  else filepath_Clean (dir ++ String "/" file).

End GoLib.
Export GoLib.

(** ** The collaborators outside [plugin.go]

    protokit's descriptors, Go's [regexp] and [ioutil.ReadFile], and the
    renderer of this repository, which lives in other files. *)

Class Collaborators := {
  (* plugin_go, protokit *)
  CodeGeneratorRequest : Type;
  GetParameter : CodeGeneratorRequest -> string;
  FileDescriptor : Type;
  GetName : FileDescriptor -> string;
  ParseCodeGenRequest : CodeGeneratorRequest -> list FileDescriptor;
  FEATURE_PROTO3_OPTIONAL : Z;
  (* regexp *)
  Regexp : Type;
  RegexpError : Type;
  regexp_Compile : string -> Regexp + RegexpError;
  MatchString : Regexp -> string -> bool;
  (* ioutil *)
  ReadError : Type;
  ReadFile : string -> string + ReadError;
  (* renderer.go, template.go *)
  RenderType : Type;
  RenderTypeHTML : RenderType;
  RenderTypeError : Type;
  NewRenderType : string -> RenderType + RenderTypeError;
  Template : Type;
  NewTemplate : list FileDescriptor -> Template;
  RenderError : Type;
  RenderTemplate : RenderType -> Template -> string -> string + RenderError;
}.

(** ** The plugin *)

Section Plugin.
Context {C : Collaborators}.

(** [PluginOptions]; the field [Type] of the source is [Type_] here. *)
Record PluginOptions := {
  Type_ : RenderType;
  TemplateFile : string;
  OutputFile : string;
  ExcludePatterns : list Regexp;
  SourceRelative : bool;
}.

(** The Go [error] values the plugin can return.  [Generate] and
    [ParseOptions] hand the error of a failed call back unchanged, so the
    external errors appear as they are; [IndexPanic] is the run-time panic
    of an index out of range. *)
Inductive error :=
| InvalidParameter (params : string)
| CompileFailure (err : RegexpError)
| ReadFailure (err : ReadError)
| RenderFailure (err : RenderError)
| IndexPanic.

(** A Go result [(value, error)] of which exactly one is non-nil. *)
Inductive result (A : Type) :=
| Ok (a : A)
| Err (e : error).
Global Arguments Ok {A} a.
Global Arguments Err {A} e.

Definition bind {A B} (r : result A) (k : A -> result B) : result B :=
  match r with
  | Ok a => k a
  | Err e => Err e
  end.

Notation "x <- r ;; k" := (bind r (fun x => k))
  (at level 100, r at next level, right associativity).

(** *** ParseOptions *)

(** The character class [[a-zA-z]] of line 136: since [A-z] is a range,
    it is every byte from [A] to [z]. *)
Definition driveClass (c : ascii) : bool :=
  (65 <=? nat_of_ascii c)%nat && (nat_of_ascii c <=? 122)%nat.

(** [regexp.MatchString("(?:^|,)[a-zA-z]$", first)]: the text ends with a
    byte of the class that is its first byte or follows a comma. *)
Definition firstMatches (first : string) : bool :=
  match reverse (bytes first) with
  | [] => false
  | [c] => driveClass c
  | c :: before :: _ => driveClass c && Ascii.eqb before ","
  end.

Definition winPathHeuristic (first second : string) : bool :=
  if HasPrefix second "\" then firstMatches first else false.

(** Lines 141-157: from the colon-separated parts, the main parameter and
    the exclude part.  [None] is the index [parts[1]] out of range. *)
Definition splitExcludePart (parts : list string) : option (string * string) :=
  match parts with
  | p0 :: p1 :: rest =>
      if winPathHeuristic p0 p1 then
        let params := p0 ++ ":" ++ p1 in
        match rest with
        | p2 :: rest' =>
            if winPathHeuristic params p2 then
              let params := params ++ ":" ++ p2 in
              match rest' with
              | p3 :: _ => Some (params, p3)
              | [] => Some (params, "")
              end
            else Some (params, p2)
        | [] => Some (params, "")
        end
      else Some (p0, p1)
  | _ => None
  end.

(** Lines 160-166: compile the patterns in turn, appending each to
    [options.ExcludePatterns]; the first failure is returned. *)
Fixpoint compilePatterns (patterns : list string) (compiled : list Regexp)
  : result (list Regexp) :=
  match patterns with
  | [] => Ok compiled
  | pattern :: rest =>
      match regexp_Compile pattern with
      | inl r => compilePatterns rest (compiled ++ [r])%list
      | inr err => Err (CompileFailure err)
      end
  end.

Definition defaultOptions : PluginOptions :=
  {| Type_ := RenderTypeHTML;
     TemplateFile := "";
     OutputFile := "index.html";
     ExcludePatterns := [];
     SourceRelative := false |}.

Definition withExcludePatterns (o : PluginOptions) (ps : list Regexp) :=
  {| Type_ := Type_ o; TemplateFile := TemplateFile o; OutputFile := OutputFile o;
     ExcludePatterns := ps; SourceRelative := SourceRelative o |}.
Definition withTemplateFile (o : PluginOptions) (f : string) :=
  {| Type_ := Type_ o; TemplateFile := f; OutputFile := OutputFile o;
     ExcludePatterns := ExcludePatterns o; SourceRelative := SourceRelative o |}.
Definition withOutputFile (o : PluginOptions) (f : string) :=
  {| Type_ := Type_ o; TemplateFile := TemplateFile o; OutputFile := f;
     ExcludePatterns := ExcludePatterns o; SourceRelative := SourceRelative o |}.
Definition withSourceRelative (o : PluginOptions) (b : bool) :=
  {| Type_ := Type_ o; TemplateFile := TemplateFile o; OutputFile := OutputFile o;
     ExcludePatterns := ExcludePatterns o; SourceRelative := b |}.
Definition withType (o : PluginOptions) (t : RenderType) :=
  {| Type_ := t; TemplateFile := TemplateFile o; OutputFile := OutputFile o;
     ExcludePatterns := ExcludePatterns o; SourceRelative := SourceRelative o |}.

(** Lines 121-168: the branch taken when the parameter has a colon. *)
Definition parseExcludes (params : string) (options : PluginOptions)
  : result (string * PluginOptions) :=
  if Contains params ":" then
    let parts := Split params ":" in
    match splitExcludePart parts with
    | None => Err IndexPanic
    | Some (params, excludePart) =>
        if (0 <? String.length excludePart)%nat then
          compiled <- compilePatterns (Split excludePart ",") (ExcludePatterns options) ;;
          Ok (params, withExcludePatterns options compiled)
        else Ok (params, options)
    end
  else Ok (params, options).

(** Lines 169-202: the main parameter. *)
Definition parseMain (params : string) (options : PluginOptions)
  : result PluginOptions :=
  if decide (params = "") then Ok options
  else if negb (Contains params ",") then Err (InvalidParameter params)
  else
    let parts := Split params "," in
    if ((List.length parts <? 2) || (3 <? List.length parts))%nat
    then Err (InvalidParameter params)
    else
      match parts with
      | p0 :: p1 :: rest =>
          let options := withTemplateFile options p0 in
          let options := withOutputFile options (path_Base p1) in
          options <-
            match rest with
            | p2 :: _ =>
                if decide (p2 = "source_relative") then Ok (withSourceRelative options true)
                else if decide (p2 = "default") then Ok (withSourceRelative options false)
                else Err (InvalidParameter params)
            | [] => Ok options
            end ;;
          let options :=
            withSourceRelative options
              (match rest with
               | p2 :: _ => bool_decide (p2 = "source_relative")
               | [] => false
               end) in
          match NewRenderType (TemplateFile options) with
          | inl renderType => Ok (withTemplateFile (withType options renderType) "")
          | inr _ => Ok options
          end
      | _ => Err IndexPanic
      end.

Definition ParseOptions (req : CodeGeneratorRequest) : result PluginOptions :=
  let options := defaultOptions in
  let params := GetParameter req in
  match parseExcludes params options with
  | Err e => Err e
  | Ok (params, options) => parseMain params options
  end.

(** The configuration that lines 182-200 derive from the fields. *)
Definition configured (options : PluginOptions) (f1 f2 : string) (rest : list string)
  : PluginOptions :=
  {| Type_ := match NewRenderType f1 with
              | inl renderType => renderType
              | inr _ => Type_ options
              end;
     TemplateFile := match NewRenderType f1 with
                     | inl _ => ""
                     | inr _ => f1
                     end;
     OutputFile := path_Base f2;
     ExcludePatterns := ExcludePatterns options;
     SourceRelative := bool_decide (rest = ["source_relative"]) |}.

(** *** excludeUnwantedProtos *)

(** The inner loop over the patterns: [true] is the [continue OUTER] taken
    at the first pattern that matches. *)
Fixpoint matchesAnyPattern (excludePatterns : list Regexp) (name : string) : bool :=
  match excludePatterns with
  | [] => false
  | p :: rest => if MatchString p name then true else matchesAnyPattern rest name
  end.

(** The patterns on which that loop calls [MatchString], in call order. *)
Fixpoint patternsTested (excludePatterns : list Regexp) (name : string) : list Regexp :=
  match excludePatterns with
  | [] => []
  | p :: rest => p :: (if MatchString p name then [] else patternsTested rest name)
  end.

(** The outer loop, with the slice [descs] built so far. *)
Fixpoint excludeLoop (fds : list FileDescriptor) (excludePatterns : list Regexp)
  (descs : list FileDescriptor) : list FileDescriptor :=
  match fds with
  | [] => descs
  | d :: rest =>
      if matchesAnyPattern excludePatterns (GetName d)
      then excludeLoop rest excludePatterns descs
      else excludeLoop rest excludePatterns (descs ++ [d])%list
  end.

Definition excludeUnwantedProtos (fds : list FileDescriptor)
  (excludePatterns : list Regexp) : list FileDescriptor :=
  excludeLoop fds excludePatterns [].

(** *** groupProtosByDirectory *)

(** The key under which the loop body files [fd]. *)
Definition groupDir (sourceRelative : bool) (fd : FileDescriptor) : string :=
  let dir := "" in
  let dir := if sourceRelative then fst (filepath_Split (GetName fd)) else dir in
  if decide (dir = "") then "./" else dir.

(** One iteration: [fdsGroup[dir] = append(fdsGroup[dir], fd)]; a missing
    key reads as the nil slice. *)
Definition groupStep (sourceRelative : bool)
  (fdsGroup : gmap string (list FileDescriptor)) (fd : FileDescriptor)
  : gmap string (list FileDescriptor) :=
  let dir := groupDir sourceRelative fd in
  <[dir := (default [] (fdsGroup !! dir) ++ [fd])%list]> fdsGroup.

Definition groupProtosByDirectory (fds : list FileDescriptor) (sourceRelative : bool)
  : gmap string (list FileDescriptor) :=
  fold_left (groupStep sourceRelative) fds ∅.

(** *** Generate *)

Record CodeGeneratorResponse_File := {
  Name : string;
  Content : string;
}.

Record CodeGeneratorResponse := {
  File : list CodeGeneratorResponse_File;
  ResponseSupportedFeatures : option Z;
}.

(** [uint64(plugin_go.CodeGeneratorResponse_FEATURE_PROTO3_OPTIONAL)]. *)
Definition SupportedFeatures : Z := (FEATURE_PROTO3_OPTIONAL mod 2 ^ 64)%Z.

(** Lines 42-51: the custom template text. *)
Definition readCustomTemplate (options : PluginOptions) : result string :=
  let customTemplate := "" in
  if decide (TemplateFile options <> "") then
    match ReadFile (TemplateFile options) with
    | inr err => Err (ReadFailure err)
    | inl data => Ok data
    end
  else Ok customTemplate.

(** Lines 55-67: the loop over the groups in the order [range] yields them,
    with [resp.File] as built so far. *)
Fixpoint renderGroups (options : PluginOptions) (customTemplate : string)
  (groups : list (string * list FileDescriptor))
  (files : list CodeGeneratorResponse_File) : result (list CodeGeneratorResponse_File) :=
  match groups with
  | [] => Ok files
  | (dir, fds) :: rest =>
      let template := NewTemplate fds in
      match RenderTemplate (Type_ options) template customTemplate with
      | inr err => Err (RenderFailure err)
      | inl output =>
          renderGroups options customTemplate rest
            (files ++ [{| Name := filepath_Join dir (OutputFile options);
                          Content := output |}])%list
      end
  end.

(** Whether the render call of a group succeeds, and the response entry
    the loop appends for it when it does. *)
Definition rendersOk (options : PluginOptions) (customTemplate : string)
  (group : string * list FileDescriptor) : bool :=
  match RenderTemplate (Type_ options) (NewTemplate group.2) customTemplate with
  | inl _ => true
  | inr _ => false
  end.

Definition responseFile (options : PluginOptions) (customTemplate : string)
  (group : string * list FileDescriptor) : CodeGeneratorResponse_File :=
  {| Name := filepath_Join group.1 (OutputFile options);
     Content := match RenderTemplate (Type_ options) (NewTemplate group.2) customTemplate with
                | inl output => output
                | inr _ => ""
                end |}.

(** The key of the group at which the loop of lines 55-67 returns the
    error of its render call, if it does. *)
Fixpoint failingDir (options : PluginOptions) (customTemplate : string)
  (groups : list (string * list FileDescriptor)) : option string :=
  match groups with
  | [] => None
  | (dir, fds) :: rest =>
      if rendersOk options customTemplate (dir, fds)
      then failingDir options customTemplate rest
      else Some dir
  end.

(** A group and the response entry that line 63 makes of it. *)
Definition entryOf (o : PluginOptions) (customTemplate : string)
  (g : string * list FileDescriptor) (f : CodeGeneratorResponse_File) : Prop :=
  Name f = filepath_Join g.1 (OutputFile o)
  /\ RenderTemplate (Type_ o) (NewTemplate g.2) customTemplate = inl (Content f).

(** The map that [Generate] ranges over. *)
Definition groupsOf (r : CodeGeneratorRequest) (options : PluginOptions)
  : gmap string (list FileDescriptor) :=
  groupProtosByDirectory
    (excludeUnwantedProtos (ParseCodeGenRequest r) (ExcludePatterns options))
    (SourceRelative options).

(** An enumeration order of a map, as one execution of [range] picks it. *)
Definition MapRange : Type :=
  gmap string (list FileDescriptor) -> list (string * list FileDescriptor).

(** What Go guarantees of [range] over a map: every entry once. *)
Definition range_visits_all (range : MapRange) : Prop :=
  forall m, range m ≡ₚ map_to_list m.

(** [Generate] returns the pair (response, error) of the source. *)
Definition Generate (range : MapRange) (r : CodeGeneratorRequest)
  : option CodeGeneratorResponse * option error :=
  match ParseOptions r with
  | Err err => (None, Some err)
  | Ok options =>
      let result :=
        excludeUnwantedProtos (ParseCodeGenRequest r) (ExcludePatterns options) in
      match readCustomTemplate options with
      | Err err => (None, Some err)
      | Ok customTemplate =>
          let fdsGroup := groupProtosByDirectory result (SourceRelative options) in
          match renderGroups options customTemplate (range fdsGroup) [] with
          | Err err => (None, Some err)
          | Ok files =>
              (Some {| File := files;
                       ResponseSupportedFeatures := Some SupportedFeatures |}, None)
          end
      end
  end.

End Plugin.

Arguments Ok {C A} a.
Arguments Err {C A} e.

(** ** The rules of the specification, in its own words

    Definitions that follow the text of the specification rather than the
    source; the theorems below compare the source against them. *)

Module Spec.

(** "a letter". *)
Definition isLetter (c : ascii) : bool :=
  ((97 <=? nat_of_ascii c)%nat && (nat_of_ascii c <=? 122)%nat)
  || ((65 <=? nat_of_ascii c)%nat && (nat_of_ascii c <=? 90)%nat).

(** "the single character immediately before (ignoring an optional
    preceding comma) is a letter": the text before the colon is one letter,
    or ends in a comma and one letter. *)
Definition letterBefore (before : string) : bool :=
  match reverse (bytes before) with
  | [] => false
  | [c] => isLetter c
  | c :: prev :: _ => isLetter c && Ascii.eqb prev ","
  end.

(** "the text immediately after starts with a path-separator character AND
    the single character immediately before ... is a letter"; the
    path-separator character is the backslash of the drive-letter paths. *)
Definition pathColon (before after : string) : bool :=
  HasPrefix after "\" && letterBefore before.

(** "continue scanning subsequent colons with the same rule, re-absorbing
    each resolved segment into the accumulated main-spec string.  The first
    colon that does not match this path-like pattern is the true separator".
    [budget] bounds the number of colons that may be absorbed. *)
Fixpoint mainSpecFrom (budget : nat) (before : string) (segments : list string) : string :=
  match budget, segments with
  | S budget', seg :: segs =>
      if pathColon before seg
      then mainSpecFrom budget' (before ++ ":" ++ seg) segs
      else before
  | _, _ => before
  end.

(** The main spec when every colon is examined. *)
Definition mainSpec (params : string) : string :=
  match Split params ":" with
  | p0 :: segs => mainSpecFrom (List.length segs) p0 segs
  | [] => params
  end.

(** "everything after it is the exclusion-pattern list": the text that
    follows the main spec and its separator colon. *)
Definition exclusionText (params : string) : string :=
  match String.length (mainSpec params) with
  | n => String.substring (S n) (String.length params - S n) params
  end.



(** "the renderer kind is cleared": the configuration holds no kind that
    a renderer name selects. *)
Definition kindCleared {C : Collaborators} (o : PluginOptions) : Prop :=
  forall name, NewRenderType name <> inl (Type_ o).

(** "everything after it is the exclusion-pattern list (comma-separated
    regular expressions, each independently compiled)". *)
Definition compiledFrom {C : Collaborators} (text : string) (pats : list Regexp) : Prop :=
  if decide (text = "") then pats = []
  else Forall2 (fun s r => regexp_Compile s = inl r) (Split text ",") pats.

(** "A field count outside [2,3] is a malformed-parameter error.  An
    unrecognized third field value is a malformed-parameter error", and so
    is a main spec without a comma. *)
Definition malformed (params : string) : Prop :=
  let fields := Split params "," in
  Contains params "," = false
  \/ List.length fields < 2
  \/ 3 < List.length fields
  \/ exists mode, fields !! 2%nat = Some mode
                /\ mode <> "source_relative" /\ mode <> "default".

End Spec.

(** ** A concrete set of collaborators

    Descriptors that are bare names, a regexp engine for a fragment of the
    syntax, a two-file file system and a renderer that lists the names it
    is given. *)

Module Demo.

Record Request := {
  RequestParameter : string;
  FileToGenerate : list string;
}.

(** A fragment of the regexp syntax: literal bytes, an escaped punctuation
    byte, [.], [^] and [$].  Anything else is refused. *)
Inductive atom :=
| Lit (c : ascii)
| AnyByte
| BeginText
| EndText.

Definition isMeta (c : ascii) : bool :=
  existsb (Ascii.eqb c) (bytes "()[]{}*+?|").

Definition isPunct (c : ascii) : bool :=
  existsb (Ascii.eqb c) (bytes "\.+*?()|[]{}^$-/:,").

Fixpoint compileAtoms (s : string) : option (list atom) :=
  match s with
  | EmptyString => Some []
  | String c rest =>
      if Ascii.eqb c "\" then
        match rest with
        | String d rest' =>
            if isPunct d then cons (Lit d) <$> compileAtoms rest' else None
        | EmptyString => None
        end
      else if isMeta c then None
      else if Ascii.eqb c "." then cons AnyByte <$> compileAtoms rest
      else if Ascii.eqb c "^" then cons BeginText <$> compileAtoms rest
      else if Ascii.eqb c "$" then cons EndText <$> compileAtoms rest
      else cons (Lit c) <$> compileAtoms rest
  end.

Fixpoint matchHere (atStart : bool) (re : list atom) (s : string) : bool :=
  match re with
  | [] => true
  | Lit c :: re' =>
      match s with
      | String d s' => Ascii.eqb c d && matchHere false re' s'
      | EmptyString => false
      end
  | AnyByte :: re' =>
      match s with
      | String d s' => negb (Ascii.eqb d "010") && matchHere false re' s'
      | EmptyString => false
      end
  | BeginText :: re' => atStart && matchHere atStart re' s
  | EndText :: re' =>
      match s with
      | EmptyString => matchHere atStart re' s
      | String _ _ => false
      end
  end.

Fixpoint matchFrom (atStart : bool) (re : list atom) (s : string) : bool :=
  matchHere atStart re s
  || match s with
     | String _ s' => matchFrom false re s'
     | EmptyString => false
     end.

Inductive Kind := DocBook | HTML | JSON | Markdown.

(** Modelled from the spec: the renderer kinds and the lookup of "a
    recognized built-in renderer" by name are in renderer.go, outside the
    source at hand; the spec fixes a default HTML kind and a set of
    recognized names, taken here to be the four format names. *)
Definition lookupKind (name : string) : Kind + unit :=
  if decide (name = "docbook") then inl DocBook
  else if decide (name = "html") then inl HTML
  else if decide (name = "json") then inl JSON
  else if decide (name = "markdown") then inl Markdown
  else inr tt.

Definition files : list (string * string) :=
  [("x.tmpl", "{{custom}}"); ("C:\tmpl.tmpl", "{{drive}}")].

Definition readFile (path : string) : string + unit :=
  match List.find (fun e => bool_decide (e.1 = path)) files with
  | Some e => inl e.2
  | None => inr tt
  end.

(** Modelled from the spec: the renderer is an external collaborator that
    "returns rendered bytes or fails with a render error"; this one lists
    the names of the group, after the custom template when there is one,
    and fails on a group that holds a descriptor named [broken.proto]. *)
Definition render (kind : Kind) (names : list string) (customTemplate : string)
  : string + unit :=
  if existsb (fun n => bool_decide (path_Base n = "broken.proto")) names
  then inr tt
  else inl (customTemplate ++ Join names ",").

#[global] Instance collaborators : Collaborators := {|
  CodeGeneratorRequest := Request;
  GetParameter := RequestParameter;
  FileDescriptor := string;
  GetName := fun name => name;
  ParseCodeGenRequest := FileToGenerate;
  FEATURE_PROTO3_OPTIONAL := 1%Z;
  Regexp := list atom;
  RegexpError := string;
  regexp_Compile := fun s =>
    match compileAtoms s with
    | Some re => inl re
    | None => inr s
    end;
  MatchString := matchFrom true;
  ReadError := unit;
  ReadFile := readFile;
  RenderType := Kind;
  RenderTypeHTML := HTML;
  RenderTypeError := unit;
  NewRenderType := lookupKind;
  Template := list string;
  NewTemplate := fun fds => fds;
  RenderError := unit;
  RenderTemplate := render;
|}.

Definition request (params : string) (names : list string) : Request :=
  {| RequestParameter := params; FileToGenerate := names |}.

(** Requests with two source directories, and with a descriptor that the
    renderer refuses in the directory [a/] or in [b/]. *)
Definition twoDirs : Request :=
  request "html,index.html,source_relative" ["a/x.proto"; "b/y.proto"].
Definition brokenA : Request :=
  request "html,index.html,source_relative" ["a/broken.proto"].
Definition brokenB : Request :=
  request "html,index.html,source_relative" ["b/broken.proto"].

(** The two enumeration orders used below. *)
Definition ascending : MapRange := fun m => map_to_list m.
Definition descending : MapRange := fun m => reverse (map_to_list m).

End Demo.

(** ** Facts about the library functions *)

Section GoLibFacts.

Implicit Types (s p : string) (c sep : ascii).

Lemma Split_not_nil s sep : Split s sep <> [].
Proof.
  destruct s as [|a s]; simpl; [discriminate|].
  destruct (Ascii.eqb a sep); [discriminate|].
  destruct (Split s sep); discriminate.
Qed.

Lemma Split_no_sep s sep : Contains s sep = false -> Split s sep = [s].
Proof.
  induction s as [|a s IH]; simpl; [reflexivity|].
  destruct (Ascii.eqb a sep); [discriminate|].
  intros H. rewrite (IH H). reflexivity.
Qed.

Lemma Split_has_sep s sep :
  Contains s sep = true -> exists p0 p1 rest, Split s sep = p0 :: p1 :: rest.
Proof.
  induction s as [|a s IH]; simpl; [discriminate|].
  destruct (Ascii.eqb a sep).
  - intros _. destruct (Split s sep) as [|q qs] eqn:E.
    + destruct (Split_not_nil _ _ E).
    + eauto.
  - intros H. destruct (IH H) as (p0 & p1 & rest & ->). eauto.
Qed.

Lemma Split_length_Contains s sep :
  Contains s sep = bool_decide (2 <= List.length (Split s sep)).
Proof.
  destruct (Contains s sep) eqn:E.
  - destruct (Split_has_sep _ _ E) as (p0 & p1 & rest & ->).
    symmetry. apply bool_decide_eq_true. simpl. lia.
  - rewrite (Split_no_sep _ _ E). reflexivity.
Qed.

Lemma Split_snoc_sep s sep :
  Split (s ++ String sep "") sep = (Split s sep ++ [""])%list.
Proof.
  induction s as [|a s IH]; simpl.
  - rewrite Ascii.eqb_refl. reflexivity.
  - destruct (Ascii.eqb a sep); rewrite IH; [reflexivity|].
    destruct (Split s sep) eqn:E; [destruct (Split_not_nil _ _ E) | reflexivity].
Qed.

Lemma Join_Split s sep : Join (Split s sep) sep = s.
Proof.
  induction s as [|a s IH]; simpl; [reflexivity|].
  destruct (Ascii.eqb a sep) eqn:E.
  - apply Ascii.eqb_eq in E. subst a.
    destruct (Split s sep) as [|q qs] eqn:Es.
    + destruct (Split_not_nil _ _ Es).
    + change (String sep (Join (q :: qs) sep) = String sep s). by rewrite IH.
  - destruct (Split s sep) as [|q [|q' qs]] eqn:Es.
    + destruct (Split_not_nil _ _ Es).
    + change (String a (Join [q] sep) = String a s). by rewrite IH.
    + change (String a (Join (q :: q' :: qs) sep) = String a s). by rewrite IH.
Qed.

Lemma Join_cons piece pieces sep :
  Join (piece :: pieces) sep = piece ++ tailOf pieces sep.
Proof.
  destruct pieces; simpl; [|reflexivity].
  induction piece; simpl; congruence.
Qed.

Lemma Join_cons_cons q1 q2 qs sep :
  Join (q1 :: q2 :: qs) sep = q1 ++ String sep (Join (q2 :: qs) sep).
Proof. reflexivity. Qed.

Lemma tailOf_shape pieces sep :
  tailOf pieces sep = "" \/ HasPrefix (tailOf pieces sep) (String sep "") = true.
Proof.
  destruct pieces; [by left|right]. unfold HasPrefix. simpl.
  destruct (ascii_dec sep sep); [|contradiction].
  match goal with |- prefix "" ?x = true => by destruct x end.
Qed.

Lemma Split_pieces s sep : Forall (fun p => Contains p sep = false) (Split s sep).
Proof.
  induction s as [|a s IH]; simpl.
  - repeat constructor.
  - destruct (Ascii.eqb a sep) eqn:E.
    + constructor; [reflexivity | exact IH].
    + destruct (Split s sep) as [|q qs]; [repeat constructor; simpl; by rewrite E|].
      inversion_clear IH. constructor; [simpl; by rewrite E | assumption].
Qed.

Lemma Contains_app s1 s2 sep :
  Contains (s1 ++ s2) sep = Contains s1 sep || Contains s2 sep.
Proof.
  induction s1 as [|a s1 IH]; simpl; [reflexivity|].
  destruct (Ascii.eqb a sep); [reflexivity | exact IH].
Qed.

Lemma append_nil_r s : s ++ "" = s.
Proof. induction s; simpl; congruence. Qed.

Lemma append_assoc s1 s2 s3 : (s1 ++ s2) ++ s3 = s1 ++ (s2 ++ s3).
Proof. induction s1; simpl; congruence. Qed.

Lemma bytes_app s1 s2 : bytes (s1 ++ s2) = (bytes s1 ++ bytes s2)%list.
Proof. unfold bytes. induction s1 as [|a s1 IH]; simpl; [reflexivity | by rewrite IH]. Qed.

(** *** [path.Base] and [filepath.Split] on a directory and a file name *)

Lemma afterLast_no_sep s sep : Contains s sep = false -> afterLast s sep = s.
Proof.
  destruct s as [|a s]; simpl; [reflexivity|].
  destruct (Ascii.eqb a sep); [discriminate|]. intros ->. reflexivity.
Qed.

Lemma afterLast_dir dir file sep :
  Contains file sep = false ->
  afterLast (dir ++ String sep file) sep = file.
Proof.
  intros Hf. induction dir as [|a dir IH]; simpl.
  - rewrite Hf, Ascii.eqb_refl. reflexivity.
  - rewrite Contains_app. simpl. rewrite Ascii.eqb_refl, orb_true_r. exact IH.
Qed.

Lemma uptoLast_no_sep s sep : Contains s sep = false -> uptoLast s sep = "".
Proof.
  destruct s as [|a s]; simpl; [reflexivity|].
  destruct (Ascii.eqb a sep); [discriminate|]. intros ->. reflexivity.
Qed.

Lemma uptoLast_dir dir file sep :
  Contains file sep = false ->
  uptoLast (dir ++ String sep file) sep = dir ++ String sep "".
Proof.
  intros Hf. induction dir as [|a dir IH]; simpl.
  - rewrite Hf, Ascii.eqb_refl. reflexivity.
  - rewrite Contains_app. simpl. rewrite Ascii.eqb_refl, orb_true_r. by rewrite IH.
Qed.

Lemma uptoLast_afterLast s sep : uptoLast s sep ++ afterLast s sep = s.
Proof.
  induction s as [|a s IH]; simpl; [reflexivity|].
  destruct (Contains s sep); simpl; [by rewrite IH|].
  destruct (Ascii.eqb a sep); reflexivity.
Qed.

Lemma afterLast_clean s sep : Contains (afterLast s sep) sep = false.
Proof.
  induction s as [|a s IH]; simpl; [reflexivity|].
  destruct (Contains s sep) eqn:E; [exact IH|].
  destruct (Ascii.eqb a sep) eqn:Ea; [exact E|]. simpl. by rewrite Ea.
Qed.

Lemma stripTrailingSlashes_file file :
  file <> "" -> Contains file "/" = false -> stripTrailingSlashes file = file.
Proof.
  induction file as [|a f IH]; [congruence|]. intros _. simpl.
  destruct (Ascii.eqb a "/") eqn:Ea; [discriminate|]. intros Hf.
  destruct f as [|b f]; [reflexivity|].
  rewrite IH by (discriminate || assumption). reflexivity.
Qed.

Lemma stripTrailingSlashes_dir dir file :
  file <> "" -> Contains file "/" = false ->
  stripTrailingSlashes (dir ++ file) = dir ++ file.
Proof.
  intros Hne Hf. induction dir as [|a dir IH]; simpl.
  - by apply stripTrailingSlashes_file.
  - rewrite IH. destruct (dir ++ file) eqn:E; [|reflexivity].
    destruct dir; simpl in E; [congruence | discriminate].
Qed.

Lemma path_Base_file file :
  file <> "" -> Contains file "/" = false -> path_Base file = file.
Proof.
  intros Hne Hf. unfold path_Base.
  destruct (decide (file = "")); [done|].
  rewrite stripTrailingSlashes_file, afterLast_no_sep by assumption.
  destruct (decide (file = "")); done.
Qed.

Lemma path_Base_dir dir file :
  file <> "" -> Contains file "/" = false ->
  path_Base (dir ++ String "/" file) = file.
Proof.
  intros Hne Hf. unfold path_Base.
  destruct (decide (dir ++ String "/" file = "")) as [E|_].
  { destruct dir; discriminate. }
  change (String "/" file) with ("/" ++ file).
  rewrite <- append_assoc, stripTrailingSlashes_dir by assumption.
  rewrite append_assoc. simpl. rewrite afterLast_dir by assumption.
  destruct (decide (file = "")); done.
Qed.

End GoLibFacts.

(** ** ParseOptions *)

Section ParseFacts.
Context {C : Collaborators}.

Implicit Types (params : string) (options : PluginOptions).

Lemma bind_Ok {A B} (r : result A) (k : A -> result B) b :
  bind r k = Ok b -> exists a, r = Ok a /\ k a = Ok b.
Proof. destruct r; simpl; [eauto | discriminate]. Qed.

Lemma winPathHeuristic_empty first : winPathHeuristic first "" = false.
Proof. reflexivity. Qed.

(** With two parts or more the indexing of lines 142-156 is in range. *)
Lemma splitExcludePart_in_range p0 p1 rest :
  exists params excludePart,
    splitExcludePart (p0 :: p1 :: rest) = Some (params, excludePart).
Proof.
  simpl. destruct (winPathHeuristic p0 p1); [|eauto].
  destruct rest as [|p2 [|p3 rest]]; [eauto| |];
    destruct (winPathHeuristic _ p2); eauto.
Qed.

Lemma splitExcludePart_snoc p0 p1 rest :
  splitExcludePart ((p0 :: p1 :: rest) ++ [""]) = splitExcludePart (p0 :: p1 :: rest).
Proof.
  simpl. destruct (winPathHeuristic p0 p1); [|reflexivity].
  destruct rest as [|p2 [|p3 rest]]; simpl.
  - reflexivity.
  - destruct (winPathHeuristic _ p2); reflexivity.
  - destruct (winPathHeuristic _ p2); reflexivity.
Qed.

Lemma parseExcludes_no_colon params options :
  Contains params ":" = false -> parseExcludes params options = Ok (params, options).
Proof. intros H. unfold parseExcludes. by rewrite H. Qed.

(** [ParseOptions] never indexes out of range. *)
Lemma parseExcludes_no_panic params options :
  parseExcludes params options <> Err IndexPanic.
Proof.
  unfold parseExcludes. destruct (Contains params ":") eqn:E; [|discriminate].
  destruct (Split_has_sep _ _ E) as (p0 & p1 & rest & ->).
  destruct (splitExcludePart_in_range p0 p1 rest) as (ps & ex & ->).
  destruct (0 <? String.length ex)%nat; [|discriminate].
  generalize (ExcludePatterns options). generalize (Split ex ",").
  induction l as [|pat l IH]; intros acc; simpl; [discriminate|].
  destruct (regexp_Compile pat); simpl; [apply IH | discriminate].
Qed.

(** A trailing colon changes nothing in lines 121-168. *)
Lemma parseExcludes_trailing_colon params options :
  parseExcludes (params ++ ":") options = parseExcludes params options.
Proof.
  unfold parseExcludes at 1.
  rewrite Contains_app, orb_true_r, Split_snoc_sep.
  destruct (Contains params ":") eqn:E.
  - unfold parseExcludes. rewrite E.
    destruct (Split_has_sep _ _ E) as (p0 & p1 & rest & ->).
    by rewrite splitExcludePart_snoc.
  - rewrite (Split_no_sep _ _ E), parseExcludes_no_colon by assumption.
    reflexivity.
Qed.

(** Lines 121-168 touch the exclude patterns only. *)
Lemma parseExcludes_options params options params' options' :
  parseExcludes params options = Ok (params', options') ->
  options' = withExcludePatterns options (ExcludePatterns options').
Proof.
  unfold parseExcludes. destruct (Contains params ":").
  - destruct (splitExcludePart _) as [[ps ex]|]; [|discriminate].
    destruct (0 <? String.length ex)%nat.
    + intros H. apply bind_Ok in H as (compiled & _ & H).
      injection H as _ <-. reflexivity.
    + injection 1 as _ <-. by destruct options.
  - injection 1 as _ <-. by destruct options.
Qed.

Lemma Split_two_fields params f1 f2 rest :
  Split params "," = f1 :: f2 :: rest ->
  params <> "" /\ Contains params "," = true.
Proof.
  intros H. split.
  - intros ->. discriminate.
  - rewrite Split_length_Contains, H. apply bool_decide_eq_true. simpl. lia.
Qed.

Lemma parseMain_wellformed params options f1 f2 rest :
  Split params "," = f1 :: f2 :: rest ->
  rest = [] \/ rest = ["source_relative"] \/ rest = ["default"] ->
  parseMain params options = Ok (configured options f1 f2 rest).
Proof.
  intros HS Hrest. destruct (Split_two_fields _ _ _ _ HS) as [Hne Hc].
  unfold parseMain. destruct (decide (params = "")); [done|].
  rewrite Hc, HS. simpl.
  destruct Hrest as [->|[->| ->]]; simpl; unfold configured; simpl;
    destruct (NewRenderType f1); reflexivity.
Qed.

Lemma parseMain_cases params options :
  params <> "" ->
  (Spec.malformed params /\ parseMain params options = Err (InvalidParameter params))
  \/ (~ Spec.malformed params
      /\ exists f1 f2 rest,
           Split params "," = f1 :: f2 :: rest
           /\ (rest = [] \/ rest = ["source_relative"] \/ rest = ["default"])
           /\ parseMain params options = Ok (configured options f1 f2 rest)).
Proof.
  intros Hne. unfold Spec.malformed.
  destruct (Split params ",") as [|f1 [|f2 rest]] eqn:HS.
  - destruct (Split_not_nil _ _ HS).
  - left. assert (Hc : Contains params "," = false).
    { rewrite Split_length_Contains, HS. reflexivity. }
    split; [by left|]. unfold parseMain.
    destruct (decide (params = "")); [done|]. by rewrite Hc.
  - destruct (Split_two_fields _ _ _ _ HS) as [_ Hc].
    destruct rest as [|f3 [|f4 rest]].
    + right. split.
      * rewrite Hc. simpl. intros [?|[?|[?|(mode & ? & _)]]]; (discriminate || lia).
      * exists f1, f2, []. split; [done|]. split; [by left|].
        by apply parseMain_wellformed; [|left].
    + destruct (decide (f3 = "source_relative")) as [->|Hsr];
        [|destruct (decide (f3 = "default")) as [->|Hd]].
      * right. split.
        { rewrite Hc. simpl. intros [?|[?|[?|(mode & [= <-] & ? & _)]]];
            (discriminate || lia || done). }
        exists f1, f2, ["source_relative"]. split; [done|]. split; [by right; left|].
        by apply parseMain_wellformed; [|right; left].
      * right. split.
        { rewrite Hc. simpl. intros [?|[?|[?|(mode & [= <-] & _ & ?)]]];
            (discriminate || lia || done). }
        exists f1, f2, ["default"]. split; [done|]. split; [by right; right|].
        by apply parseMain_wellformed; [|right; right].
      * left. split; [right; right; right; exists f3; by simpl|].
        unfold parseMain. destruct (decide (params = "")); [done|].
        rewrite Hc, HS. simpl.
        destruct (decide (f3 = "source_relative")); [done|].
        destruct (decide (f3 = "default")); done.
    + left. split; [right; right; left; simpl; lia|].
      unfold parseMain. destruct (decide (params = "")); [done|].
      by rewrite Hc, HS.
Qed.

End ParseFacts.

(** ** The colons of the parameter *)

Section ColonFacts.
Context {C : Collaborators}.

(** Where the main parameter and the exclude part sit in the text: the
    main parameter is a prefix; either it is the whole text, or a colon
    follows it, then the exclude part, which runs to the next colon. *)
Lemma splitExcludePart_position p p0 p1 rest params excludePart :
  Split p ":" = p0 :: p1 :: rest ->
  splitExcludePart (p0 :: p1 :: rest) = Some (params, excludePart) ->
  Contains excludePart ":" = false
  /\ ((p = params /\ excludePart = "")
      \/ exists tail, p = params ++ ":" ++ excludePart ++ tail
                      /\ (tail = "" \/ HasPrefix tail ":" = true)).
Proof.
  intros HS. pose proof (Join_Split p ":") as HJ. rewrite HS in HJ.
  pose proof (Split_pieces p ":") as HP. rewrite HS in HP.
  apply Forall_cons in HP as [_ HP]. apply Forall_cons in HP as [H1 HP].
  simpl. destruct (winPathHeuristic p0 p1).
  - destruct rest as [|p2 rest].
    + injection 1 as <- <-. split; [done|]. left. split; [|done].
      by rewrite <- HJ.
    + apply Forall_cons in HP as [H2 HP].
      destruct (winPathHeuristic _ p2).
      * destruct rest as [|p3 rest].
        { injection 1 as <- <-. split; [done|]. left. split; [|done].
          rewrite <- HJ. simpl. by rewrite !append_assoc. }
        apply Forall_cons in HP as [H3 HP].
        injection 1 as <- <-. split; [done|]. right. exists (tailOf rest ":").
        split; [|apply tailOf_shape].
        by rewrite <- HJ, !Join_cons_cons, Join_cons, !append_assoc.
      * injection 1 as <- <-. split; [done|]. right. exists (tailOf rest ":").
        split; [|apply tailOf_shape].
        by rewrite <- HJ, !Join_cons_cons, Join_cons, ?append_assoc.
  - injection 1 as <- <-. split; [done|]. right. exists (tailOf rest ":").
    split; [|apply tailOf_shape].
    by rewrite <- HJ, !Join_cons_cons, Join_cons.
Qed.







End ColonFacts.

(** ** Filtering, grouping and assembly *)

Section PipelineFacts.
Context {C : Collaborators}.

Implicit Types (fds descs : list FileDescriptor) (pats : list Regexp).
Implicit Types (groups : list (string * list FileDescriptor)).

Lemma matchesAnyPattern_existsb pats name :
  matchesAnyPattern pats name = existsb (fun p => MatchString p name) pats.
Proof.
  induction pats as [|p pats IH]; simpl; [reflexivity|].
  destruct (MatchString p name); [reflexivity | exact IH].
Qed.

Lemma excludeLoop_filter fds pats descs :
  excludeLoop fds pats descs
  = (descs ++ List.filter (fun d => negb (matchesAnyPattern pats (GetName d))) fds)%list.
Proof.
  revert descs. induction fds as [|d fds IH]; intros descs; simpl.
  - by rewrite app_nil_r.
  - destruct (matchesAnyPattern pats (GetName d)); simpl; rewrite IH; [reflexivity|].
    by rewrite <- app_assoc.
Qed.

Lemma filter_sublist {A} (keep : A -> bool) (l : list A) :
  List.filter keep l `sublist_of` l.
Proof.
  induction l as [|x l IH]; simpl; [constructor|].
  destruct (keep x); by constructor.
Qed.

(** The inner loop stops at the first pattern that matches. *)
Lemma patternsTested_first_match pats name before p after :
  pats = (before ++ p :: after)%list ->
  Forall (fun q => MatchString q name = false) before ->
  MatchString p name = true ->
  matchesAnyPattern pats name = true
  /\ patternsTested pats name = (before ++ [p])%list.
Proof.
  intros -> Hb Hp. induction Hb as [|q before Hq _ IH]; simpl.
  - by rewrite Hp.
  - rewrite Hq. destruct IH as [-> ->]. done.
Qed.

Lemma patternsTested_no_match pats name :
  Forall (fun q => MatchString q name = false) pats ->
  matchesAnyPattern pats name = false /\ patternsTested pats name = pats.
Proof.
  induction 1 as [|q pats Hq _ [IH1 IH2]]; simpl; [done|].
  by rewrite Hq, IH1, IH2.
Qed.

(** *** Grouping *)

Lemma group_fold_lookup sourceRelative fds (m : gmap string (list FileDescriptor)) k :
  fold_left (groupStep sourceRelative) fds m !! k
  = match List.filter (fun fd => bool_decide (groupDir sourceRelative fd = k)) fds with
    | [] => m !! k
    | l => Some (default [] (m !! k) ++ l)%list
    end.
Proof.
  revert m. induction fds as [|fd fds IH]; intros m; simpl; [reflexivity|].
  rewrite IH. unfold groupStep at 1 2.
  case_bool_decide as Hk.
  - rewrite Hk, lookup_insert_eq. simpl.
    destruct (List.filter _ fds); simpl; [reflexivity|].
    by rewrite <- app_assoc.
  - by rewrite lookup_insert_ne.
Qed.

Lemma groupProtosByDirectory_lookup fds sourceRelative k :
  groupProtosByDirectory fds sourceRelative !! k
  = match List.filter (fun fd => bool_decide (groupDir sourceRelative fd = k)) fds with
    | [] => None
    | l => Some l
    end.
Proof.
  unfold groupProtosByDirectory. rewrite group_fold_lookup, lookup_empty.
  by destruct (List.filter _ fds).
Qed.

Lemma filter_all {A} (keep : A -> bool) (l : list A) :
  (forall x, keep x = true) -> List.filter keep l = l.
Proof. intros H. induction l as [|x l IH]; simpl; [done|]. by rewrite H, IH. Qed.

Lemma filter_none {A} (keep : A -> bool) (l : list A) :
  (forall x, keep x = false) -> List.filter keep l = [].
Proof. intros H. induction l as [|x l IH]; simpl; [done|]. by rewrite H. Qed.

Lemma single_output_lookup fds k :
  groupProtosByDirectory fds false !! k
  = if decide (k = "./" /\ fds <> []) then Some fds else None.
Proof.
  rewrite groupProtosByDirectory_lookup.
  destruct (decide (k = "./")) as [->|Hk].
  - rewrite filter_all by (intros; by apply bool_decide_eq_true).
    destruct fds; [|by rewrite decide_True].
    rewrite decide_False; [done | tauto].
  - rewrite filter_none.
    + rewrite decide_False; [done | tauto].
    + intros fd. apply bool_decide_eq_false. unfold groupDir. simpl. congruence.
Qed.

(** In single-output mode there is at most one group. *)
Lemma single_output_groups fds :
  groupProtosByDirectory fds false
  = match fds with [] => ∅ | _ => {["./" := fds]} end.
Proof.
  apply map_eq. intros k. rewrite single_output_lookup.
  destruct fds as [|fd fds].
  - rewrite lookup_empty, decide_False; [done | tauto].
  - destruct (decide (k = "./")) as [->|Hk].
    + by rewrite lookup_singleton_eq, decide_True.
    + rewrite lookup_singleton_ne by done. rewrite decide_False; [done | tauto].
Qed.

(** *** Assembly *)

Lemma renderGroups_all_ok options customTemplate groups files :
  Forall (fun g => rendersOk options customTemplate g = true) groups ->
  renderGroups options customTemplate groups files
  = Ok (files ++ map (responseFile options customTemplate) groups)%list.
Proof.
  intros H. revert files.
  induction H as [|[dir fds] groups Hg _ IH]; intros files; simpl.
  - by rewrite app_nil_r.
  - unfold rendersOk, responseFile in *. simpl in *.
    destruct (RenderTemplate _ _ _); [|discriminate].
    by rewrite IH, <- app_assoc.
Qed.

Lemma renderGroups_first_failure options customTemplate before dir fds after err files :
  Forall (fun g => rendersOk options customTemplate g = true) before ->
  RenderTemplate (Type_ options) (NewTemplate fds) customTemplate = inr err ->
  renderGroups options customTemplate (before ++ (dir, fds) :: after)%list files
  = Err (RenderFailure err).
Proof.
  intros H Herr. revert files.
  induction H as [|[d f] before Hg _ IH]; intros files; simpl.
  - by rewrite Herr.
  - unfold rendersOk in Hg. simpl in Hg.
    destruct (RenderTemplate _ (NewTemplate f) _); [apply IH | discriminate].
Qed.

(** A list with a failing group has a first one. *)
Lemma first_failing_group options customTemplate groups :
  Exists (fun g => rendersOk options customTemplate g = false) groups ->
  exists before dir fds after err,
    groups = (before ++ (dir, fds) :: after)%list
    /\ Forall (fun g => rendersOk options customTemplate g = true) before
    /\ RenderTemplate (Type_ options) (NewTemplate fds) customTemplate = inr err.
Proof.
  induction groups as [|[dir fds] groups IH]; intros H; [by inversion H|].
  destruct (rendersOk options customTemplate (dir, fds)) eqn:E.
  - inversion H as [? ? Hbad|? ? Hex]; subst; [simpl in *; congruence|].
    destruct (IH Hex) as (before & d & f & after & err & -> & Hb & Herr).
    exists ((dir, fds) :: before), d, f, after, err. repeat split; [|done].
    by constructor.
  - unfold rendersOk in E. simpl in E.
    destruct (RenderTemplate _ (NewTemplate fds) _) as [|err] eqn:Er; [discriminate|].
    exists [], dir, fds, groups, err. by repeat split.
Qed.

Lemma rendersOk_decide options customTemplate groups :
  Forall (fun g => rendersOk options customTemplate g = true) groups
  \/ Exists (fun g => rendersOk options customTemplate g = false) groups.
Proof.
  induction groups as [|g groups [IH|IH]].
  - left. constructor.
  - destruct (rendersOk options customTemplate g) eqn:E.
    + left. by constructor.
    + right. by constructor.
  - right. by constructor.
Qed.

(** The outcome of [Generate], by the enumeration [range] picks. *)
Lemma Generate_rendered range r options customTemplate :
  ParseOptions r = Ok options ->
  readCustomTemplate options = Ok customTemplate ->
  Generate range r
  = match renderGroups options customTemplate (range (groupsOf r options)) [] with
    | Err err => (None, Some err)
    | Ok files =>
        (Some {| File := files; ResponseSupportedFeatures := Some SupportedFeatures |},
         None)
    end.
Proof. intros HP HR. unfold Generate. by rewrite HP, HR. Qed.

Lemma Exists_Permutation_false {A} (P : A -> Prop) (l1 l2 : list A) :
  l1 ≡ₚ l2 -> Exists P l1 -> Exists P l2.
Proof.
  intros Hp H. apply Exists_exists in H as (x & Hx & HPx).
  apply Exists_exists. exists x. split; [by rewrite <- Hp | done].
Qed.

End PipelineFacts.

(** ** The properties of the specification: the parameter grammar *)

Section GrammarProperties.
Context {C : Collaborators}.

(** C5. For the empty parameter string, [ParseOptions] succeeds and returns
    the fixed default configuration: the built-in HTML renderer, no
    template file, output file name [index.html], single-output grouping
    and no exclusion pattern. *)
Theorem C5_empty_parameter_defaults (req : CodeGeneratorRequest) :
  GetParameter req = "" ->
  ParseOptions req
  = Ok {| Type_ := RenderTypeHTML;
          TemplateFile := "";
          OutputFile := "index.html";
          ExcludePatterns := [];
          SourceRelative := false |}.
Proof. intros H. unfold ParseOptions. rewrite H. reflexivity. Qed.

(** C10. A trailing colon with nothing after it changes nothing: the
    parameter [m ++ ":"] parses as [m] does, so no pattern and no error
    come from the empty exclusion part; a well-formed main spec without a
    colon followed by the colon yields its configuration with no exclusion
    pattern, and [":"] parses to the default configuration. *)
Theorem C10_trailing_colon (req req' : CodeGeneratorRequest) :
  GetParameter req' = GetParameter req ++ ":" ->
  ParseOptions req' = ParseOptions req
  /\ (forall f1 f2 rest,
        Contains (GetParameter req) ":" = false ->
        Split (GetParameter req) "," = f1 :: f2 :: rest ->
        rest = [] \/ rest = ["source_relative"] \/ rest = ["default"] ->
        exists o, ParseOptions req' = Ok o
                  /\ o = configured defaultOptions f1 f2 rest
                  /\ ExcludePatterns o = [])
  /\ (GetParameter req = "" -> ParseOptions req' = Ok defaultOptions).
Proof.
  intros H.
  assert (E : ParseOptions req' = ParseOptions req).
  { unfold ParseOptions. by rewrite H, parseExcludes_trailing_colon. }
  split; [exact E|]. rewrite E. split.
  - intros f1 f2 rest Hc HS Hrest. eexists. split; [|split; reflexivity].
    unfold ParseOptions. rewrite parseExcludes_no_colon by assumption.
    by apply parseMain_wellformed.
  - intros H0. unfold ParseOptions. by rewrite H0.
Qed.

(** C7. For a non-empty main spec (the parameter itself when it has no
    colon), [ParseOptions] fails with the invalid-parameter error exactly
    when the main spec is malformed: no comma, a field count outside
    [2,3], or a third field other than [source_relative] and [default];
    otherwise it succeeds, with relative grouping exactly when the third
    field is [source_relative]. *)
Theorem C7_malformed_parameter (req : CodeGeneratorRequest)
  (params : string) (options : PluginOptions) :
  parseExcludes (GetParameter req) defaultOptions = Ok (params, options) ->
  params <> "" ->
  (ParseOptions req = Err (InvalidParameter params) <-> Spec.malformed params)
  /\ (~ Spec.malformed params ->
      exists o, ParseOptions req = Ok o
                /\ SourceRelative o
                   = bool_decide (Split params "," !! 2%nat = Some "source_relative"))
  /\ (Contains (GetParameter req) ":" = false ->
      params = GetParameter req
      /\ (Contains params "," = false ->
          ParseOptions req = Err (InvalidParameter params))).
Proof.
  intros HE Hne.
  assert (HP : ParseOptions req = parseMain params options).
  { unfold ParseOptions. by rewrite HE. }
  rewrite HP.
  destruct (parseMain_cases params options Hne)
    as [[Hbad ->]|[Hgood (f1 & f2 & rest & HS & Hrest & ->)]].
  - split; [tauto|]. split; [tauto|]. intros Hc.
    rewrite parseExcludes_no_colon in HE by assumption.
    injection HE as <- _. done.
  - split; [split; [discriminate | tauto]|]. split.
    + intros _. eexists. split; [reflexivity|]. rewrite HS. simpl.
      destruct Hrest as [->|[->| ->]]; reflexivity.
    + intros Hc. rewrite parseExcludes_no_colon in HE by assumption.
      injection HE as <- _. split; [done|]. intros Hcomma.
      destruct Hgood. by left.
Qed.

(** C6 (amended). For a main spec of two or three comma-separated fields
    whose third field, if any, is [source_relative] or [default],
    [ParseOptions] succeeds; a first field that names a renderer selects
    that kind and leaves no template file, any other first field is kept
    as the template file while the renderer kind keeps its default,
    [RenderTypeHTML]; the output file name is [path.Base] of the second
    field, which is its last component when that is not empty. *)
Theorem C6_fields_amended (req : CodeGeneratorRequest)
  (params : string) (options : PluginOptions) (f1 f2 : string) (rest : list string) :
  parseExcludes (GetParameter req) defaultOptions = Ok (params, options) ->
  Split params "," = f1 :: f2 :: rest ->
  rest = [] \/ rest = ["source_relative"] \/ rest = ["default"] ->
  ParseOptions req
  = Ok {| Type_ := match NewRenderType f1 with
                   | inl renderType => renderType
                   | inr _ => RenderTypeHTML
                   end;
          TemplateFile := match NewRenderType f1 with
                          | inl _ => ""
                          | inr _ => f1
                          end;
          OutputFile := path_Base f2;
          ExcludePatterns := ExcludePatterns options;
          SourceRelative := bool_decide (rest = ["source_relative"]) |}
  /\ (forall dir file,
        file <> "" -> Contains file "/" = false ->
        (f2 = file \/ f2 = dir ++ String "/" file) -> path_Base f2 = file).
Proof.
  intros HE HS Hrest. split.
  - unfold ParseOptions. rewrite HE.
    rewrite (parseMain_wellformed _ _ _ _ _ HS Hrest). unfold configured.
    rewrite (parseExcludes_options _ _ _ _ HE). reflexivity.
  - intros dir file Hne Hf [->| ->].
    + by apply path_Base_file.
    + by apply path_Base_dir.
Qed.

End GrammarProperties.

Lemma C5_empty_parameter_defaults_witness :
  @GetParameter Demo.collaborators (Demo.request "" ["a.proto"]) = ""
  /\ ParseOptions (C := Demo.collaborators) (Demo.request "" ["a.proto"])
     = Ok {| Type_ := Demo.HTML; TemplateFile := ""; OutputFile := "index.html";
             ExcludePatterns := []; SourceRelative := false |}.
Proof.
  split; [reflexivity|].
  apply (C5_empty_parameter_defaults (C := Demo.collaborators) (Demo.request "" ["a.proto"])). reflexivity.
Defined.

Lemma C10_trailing_colon_witness :
  (ParseOptions (C := Demo.collaborators)
     (Demo.request "html,out.html,source_relative:" [])
   = ParseOptions (C := Demo.collaborators)
       (Demo.request "html,out.html,source_relative" []))
  /\ (exists o,
        ParseOptions (C := Demo.collaborators)
          (Demo.request "html,out.html,source_relative:" []) = Ok o
        /\ o = configured defaultOptions "html" "out.html" ["source_relative"]
        /\ ExcludePatterns o = [])
  /\ ParseOptions (C := Demo.collaborators) (Demo.request ":" []) = Ok defaultOptions.
Proof.
  destruct (C10_trailing_colon (C := Demo.collaborators)
              (Demo.request "html,out.html,source_relative" [])
              (Demo.request "html,out.html,source_relative:" []) eq_refl)
    as (Hsame & Hmain & _).
  destruct (C10_trailing_colon (C := Demo.collaborators)
              (Demo.request "" []) (Demo.request ":" []) eq_refl)
    as (_ & _ & Hcolon).
  split; [exact Hsame|]. split.
  - apply (Hmain "html" "out.html" ["source_relative"]).
    + reflexivity.
    + reflexivity.
    + right. left. reflexivity.
  - apply Hcolon. reflexivity.
Defined.

Lemma C7_malformed_parameter_witness :
  (ParseOptions (C := Demo.collaborators)
     (Demo.request "html,out.html,relative:^vendor/" [])
   = Err (InvalidParameter "html,out.html,relative")
   <-> Spec.malformed "html,out.html,relative")
  /\ (exists o,
        ParseOptions (C := Demo.collaborators)
          (Demo.request "html,out.html,source_relative" []) = Ok o
        /\ SourceRelative o = true)
  /\ ParseOptions (C := Demo.collaborators) (Demo.request "html" [])
     = Err (InvalidParameter "html").
Proof.
  split; [|split].
  - apply (C7_malformed_parameter (C := Demo.collaborators)
             (Demo.request "html,out.html,relative:^vendor/" [])
             "html,out.html,relative"
             (withExcludePatterns (C := Demo.collaborators) defaultOptions
                [[Demo.BeginText; Demo.Lit "v"; Demo.Lit "e"; Demo.Lit "n";
                  Demo.Lit "d"; Demo.Lit "o"; Demo.Lit "r"; Demo.Lit "/"]])).
    + reflexivity.
    + discriminate.
  - destruct (C7_malformed_parameter (C := Demo.collaborators)
                (Demo.request "html,out.html,source_relative" [])
                "html,out.html,source_relative"
                (defaultOptions (C := Demo.collaborators)) eq_refl)
      as (_ & Hgood & _); [discriminate|].
    apply Hgood. unfold Spec.malformed. simpl.
    intros [H|[H|[H|(mode & Hm & Hsr & _)]]];
      [discriminate | lia | lia | injection Hm as <-; by apply Hsr].
  - destruct (C7_malformed_parameter (C := Demo.collaborators)
                (Demo.request "html" []) "html"
                (defaultOptions (C := Demo.collaborators)) eq_refl)
      as (_ & _ & Hplain); [discriminate|].
    apply Hplain; reflexivity.
Defined.

Lemma C6_fields_amended_witness :
  ParseOptions (C := Demo.collaborators)
    (Demo.request "x.tmpl,doc/out.html,source_relative" [])
  = Ok {| Type_ := Demo.HTML; TemplateFile := "x.tmpl"; OutputFile := "out.html";
          ExcludePatterns := []; SourceRelative := true |}
  /\ path_Base "doc/out.html" = "out.html".
Proof.
  destruct (C6_fields_amended (C := Demo.collaborators)
              (Demo.request "x.tmpl,doc/out.html,source_relative" [])
              "x.tmpl,doc/out.html,source_relative"
              (defaultOptions (C := Demo.collaborators))
              "x.tmpl" "doc/out.html" ["source_relative"])
    as (Hparse & Hbase).
  - reflexivity.
  - reflexivity.
  - right. left. reflexivity.
  - split; [exact Hparse|]. apply (Hbase "doc" "out.html").
    + discriminate.
    + reflexivity.
    + right. reflexivity.
Defined.

(** The renderer kind is not cleared by a template path: the configuration
    of [x.tmpl,out.html] holds the kind that the name [html] selects. *)
Lemma C6_kind_not_cleared :
  exists o,
    ParseOptions (C := Demo.collaborators) (Demo.request "x.tmpl,out.html" []) = Ok o
    /\ @NewRenderType Demo.collaborators "x.tmpl" = inr tt
    /\ TemplateFile o = "x.tmpl"
    /\ ~ Spec.kindCleared o.
Proof.
  eexists. split; [reflexivity|]. split; [reflexivity|]. split; [reflexivity|].
  intros H. exact (H "html" eq_refl).
Qed.

(** ** The properties of the specification: filtering and grouping *)

Section FilterGroupProperties.
Context {C : Collaborators}.

Lemma existsb_false_Forall {A} (f : A -> bool) (l : list A) :
  existsb f l = false <-> Forall (fun x => f x = false) l.
Proof.
  induction l as [|x l IH]; simpl.
  - split; [constructor | done].
  - rewrite orb_false_iff, IH. split.
    + intros [??]. by constructor.
    + by inversion 1.
Qed.

(** C8. The exclusion filter drops a descriptor exactly when its name
    matches at least one pattern: the result is the input filtered by
    that test, hence its members are the input's members that no pattern
    matches, in input order; with no pattern the result is the input; the
    patterns are tested in order up to the first match.  The function is
    total and has no error result. *)
Theorem C8_exclusion_filter (fds : list FileDescriptor) (pats : list Regexp) :
  excludeUnwantedProtos fds pats
  = List.filter
      (fun d => negb (existsb (fun p => MatchString p (GetName d)) pats)) fds
  /\ (forall d, d ∈ excludeUnwantedProtos fds pats
                <-> d ∈ fds /\ forall p, p ∈ pats -> MatchString p (GetName d) = false)
  /\ excludeUnwantedProtos fds pats `sublist_of` fds
  /\ excludeUnwantedProtos fds [] = fds
  /\ (forall name before p after,
        pats = (before ++ p :: after)%list ->
        Forall (fun q => MatchString q name = false) before ->
        MatchString p name = true ->
        matchesAnyPattern pats name = true
        /\ patternsTested pats name = (before ++ [p])%list).
Proof.
  assert (E : forall ps,
    excludeUnwantedProtos fds ps
    = List.filter
        (fun d => negb (existsb (fun p => MatchString p (GetName d)) ps)) fds).
  { intros ps. unfold excludeUnwantedProtos. rewrite excludeLoop_filter. simpl.
    apply filter_ext. intros d. by rewrite matchesAnyPattern_existsb. }
  split; [apply E|]. split; [|split; [|split]].
  - intros d. rewrite E, !list_elem_of_In, filter_In, negb_true_iff.
    rewrite existsb_false_Forall, Forall_forall. reflexivity.
  - rewrite E. apply filter_sublist.
  - rewrite E. by apply filter_all.
  - intros name before p after. apply patternsTested_first_match.
Qed.

(** C9. In single-output mode every descriptor is in the one group keyed
    [./] (and there is no other group); in per-source-directory mode the
    group of a key holds, in input order, the descriptors whose name has
    that directory portion, where an empty directory portion counts as
    [./]; the directory portion is the text up to and including the last
    slash.  So [a/b.proto] and [a/c.proto] share the group [a/] and
    [d.proto] is in the group [./]. *)
Theorem C9_grouping (fds : list FileDescriptor) :
  (forall k, groupProtosByDirectory fds false !! k
             = if decide (k = "./" /\ fds <> []) then Some fds else None)
  /\ (forall k, groupProtosByDirectory fds true !! k
                = match List.filter
                          (fun fd =>
                             bool_decide
                               ((let dir := (filepath_Split (GetName fd)).1 in
                                 if decide (dir = "") then "./" else dir) = k)) fds
                  with
                  | [] => None
                  | l => Some l
                  end)
  /\ (forall dir file, Contains file "/" = false ->
        filepath_Split file = ("", file)
        /\ filepath_Split (dir ++ String "/" file) = (dir ++ "/", file))
  /\ (forall b c d,
        GetName b = "a/b.proto" -> GetName c = "a/c.proto" -> GetName d = "d.proto" ->
        groupProtosByDirectory [b; c; d] true
        = <["a/" := [b; c]]> {["./" := [d]]}).
Proof.
  split; [apply single_output_lookup|]. split; [|split].
  - intros k. exact (groupProtosByDirectory_lookup fds true k).
  - intros dir file Hf. unfold filepath_Split.
    by rewrite uptoLast_no_sep, afterLast_no_sep, uptoLast_dir, afterLast_dir.
  - intros b c d Hb Hc Hd.
    assert (Eb : groupDir true b = "a/") by (unfold groupDir; by rewrite Hb).
    assert (Ec : groupDir true c = "a/") by (unfold groupDir; by rewrite Hc).
    assert (Ed : groupDir true d = "./") by (unfold groupDir; by rewrite Hd).
    apply map_eq. intros k. rewrite groupProtosByDirectory_lookup. simpl.
    rewrite Eb, Ec, Ed.
    destruct (decide (k = "a/")) as [->|Ha].
    + by rewrite lookup_insert_eq.
    + rewrite lookup_insert_ne by done.
      rewrite (bool_decide_eq_false_2 ("a/" = k)) by done.
      destruct (decide (k = "./")) as [->|Hd'].
      * by rewrite lookup_singleton_eq.
      * rewrite lookup_singleton_ne by done.
        by rewrite (bool_decide_eq_false_2 ("./" = k)).
Qed.

End FilterGroupProperties.

Lemma C8_exclusion_filter_witness :
  excludeUnwantedProtos (C := Demo.collaborators)
    ["a/x.proto"; "vendor/y.proto"; "b/z.proto"]
    [[Demo.Lit "q"]; [Demo.BeginText; Demo.Lit "v"]; [Demo.Lit "y"]]
  = ["a/x.proto"; "b/z.proto"]
  /\ patternsTested (C := Demo.collaborators)
       [[Demo.Lit "q"]; [Demo.BeginText; Demo.Lit "v"]; [Demo.Lit "y"]]
       "vendor/y.proto"
     = [[Demo.Lit "q"]; [Demo.BeginText; Demo.Lit "v"]].
Proof.
  destruct (C8_exclusion_filter (C := Demo.collaborators)
              ["a/x.proto"; "vendor/y.proto"; "b/z.proto"]
              [[Demo.Lit "q"]; [Demo.BeginText; Demo.Lit "v"]; [Demo.Lit "y"]])
    as (Hfilter & _ & _ & _ & Hfirst).
  split.
  - rewrite Hfilter. reflexivity.
  - apply (Hfirst "vendor/y.proto" [[Demo.Lit "q"]]
             [Demo.BeginText; Demo.Lit "v"] [[Demo.Lit "y"]]).
    + reflexivity.
    + repeat constructor.
    + reflexivity.
Defined.

Lemma C9_grouping_witness :
  groupProtosByDirectory (C := Demo.collaborators)
    ["a/b.proto"; "a/c.proto"; "d.proto"] true
  = <["a/" := ["a/b.proto"; "a/c.proto"]]> {["./" := ["d.proto"]]}
  /\ filepath_Split "a/b.proto" = ("a/", "b.proto").
Proof.
  destruct (C9_grouping (C := Demo.collaborators) [])
    as (_ & _ & Hsplit & Hexample).
  split.
  - apply Hexample; reflexivity.
  - apply (Hsplit "a" "b.proto"). reflexivity.
Defined.

(** ** The properties of the specification: assembly *)

Section AssemblyProperties.
Context {C : Collaborators}.

Lemma Permutation_short {A} (l1 l2 : list A) :
  l1 ≡ₚ l2 -> List.length l2 <= 1 -> l1 = l2.
Proof.
  destruct l2 as [|x [|y l2]]; simpl; intros Hp Hl.
  - by apply Permutation_nil_r.
  - by apply Permutation_singleton_r.
  - lia.
Qed.

Lemma single_output_short (fds : list FileDescriptor) :
  List.length (map_to_list (groupProtosByDirectory fds false)) <= 1.
Proof.
  rewrite single_output_groups. destruct fds.
  - rewrite map_to_list_empty. simpl. lia.
  - rewrite map_to_list_singleton. simpl. lia.
Qed.

(** C4 (amended). If the render call fails for some group of the
    enumeration, [Generate] returns no response at all, and its error is
    the error of the render call of the first such group, handed back
    as it is (nothing is added to it, the group key neither). *)
Theorem C4_render_failure_amended (range : MapRange) (req : CodeGeneratorRequest)
  (options : PluginOptions) (customTemplate : string) :
  ParseOptions req = Ok options ->
  readCustomTemplate options = Ok customTemplate ->
  Exists (fun g => rendersOk options customTemplate g = false)
    (range (groupsOf req options)) ->
  exists before dir fds after err,
    range (groupsOf req options) = (before ++ (dir, fds) :: after)%list
    /\ Forall (fun g => rendersOk options customTemplate g = true) before
    /\ RenderTemplate (Type_ options) (NewTemplate fds) customTemplate = inr err
    /\ Generate range req = (None, Some (RenderFailure err)).
Proof.
  intros HP HR Hex.
  destruct (first_failing_group _ _ _ Hex)
    as (before & dir & fds & after & err & Hl & Hb & Herr).
  exists before, dir, fds, after, err. repeat split; try done.
  rewrite (Generate_rendered _ _ _ _ HP HR), Hl.
  by rewrite (renderGroups_first_failure _ _ _ _ _ _ _ _ Hb Herr).
Qed.

(** C1 (amended). Two runs of [Generate] on the same request, whatever
    the order in which each enumerates the groups, both succeed or both
    fail; when they succeed their responses hold the same entries, up to
    the order of the entries, and the same feature flag; when the request
    does not parse, or parses to single-output grouping, the two results
    are identical. *)
Theorem C1_determinism_amended (range1 range2 : MapRange) (req : CodeGeneratorRequest) :
  range_visits_all range1 ->
  range_visits_all range2 ->
  match Generate range1 req, Generate range2 req with
  | (Some resp1, None), (Some resp2, None) =>
      File resp1 ≡ₚ File resp2
      /\ ResponseSupportedFeatures resp1 = ResponseSupportedFeatures resp2
  | (None, Some _), (None, Some _) => True
  | _, _ => False
  end
  /\ (forall options,
        ParseOptions req = Ok options -> SourceRelative options = false ->
        Generate range1 req = Generate range2 req)
  /\ (forall err,
        ParseOptions req = Err err ->
        Generate range1 req = (None, Some err)
        /\ Generate range2 req = (None, Some err)).
Proof.
  intros H1 H2.
  assert (Hperm : forall m, range1 m ≡ₚ range2 m).
  { intros m. by rewrite (H1 m), (H2 m). }
  split; [|split].
  - destruct (ParseOptions req) as [options|err] eqn:HP.
    2:{ unfold Generate. by rewrite HP. }
    destruct (readCustomTemplate options) as [customTemplate|err] eqn:HR.
    2:{ unfold Generate. by rewrite HP, HR. }
    rewrite !(Generate_rendered _ _ _ _ HP HR).
    specialize (Hperm (groupsOf req options)).
    destruct (rendersOk_decide options customTemplate (range1 (groupsOf req options)))
      as [Hok|Hbad].
    + rewrite (renderGroups_all_ok _ _ _ _ Hok).
      rewrite Hperm in Hok. rewrite (renderGroups_all_ok _ _ _ _ Hok).
      simpl. split; [|reflexivity]. by apply Permutation_map.
    + destruct (first_failing_group _ _ _ Hbad)
        as (b1 & d1 & f1 & a1 & e1 & -> & Hb1 & He1).
      rewrite (renderGroups_first_failure _ _ _ _ _ _ _ _ Hb1 He1).
      apply (Exists_Permutation_false _ _ _ Hperm) in Hbad.
      destruct (first_failing_group _ _ _ Hbad)
        as (b2 & d2 & f2 & a2 & e2 & -> & Hb2 & He2).
      by rewrite (renderGroups_first_failure _ _ _ _ _ _ _ _ Hb2 He2).
  - intros options HP Hsr. unfold Generate. rewrite HP, Hsr.
    set (m := groupProtosByDirectory _ false).
    rewrite (Permutation_short (range1 m) (range2 m)); [reflexivity|apply Hperm|].
    rewrite (Permutation_length (H2 m)). apply single_output_short.
  - intros err HP. unfold Generate. by rewrite HP.
Qed.

End AssemblyProperties.

Lemma ascending_visits_all :
  range_visits_all (C := Demo.collaborators) Demo.ascending.
Proof. intros m. reflexivity. Qed.

Lemma descending_visits_all :
  range_visits_all (C := Demo.collaborators) Demo.descending.
Proof. intros m. apply reverse_Permutation. Qed.

Lemma C4_render_failure_amended_witness :
  Generate (C := Demo.collaborators) Demo.descending
    (Demo.request "html,index.html,source_relative"
       ["a/x.proto"; "b/broken.proto"; "c/y.proto"])
  = (None, Some (RenderFailure tt)).
Proof.
  destruct (C4_render_failure_amended (C := Demo.collaborators) Demo.descending
              (Demo.request "html,index.html,source_relative"
                 ["a/x.proto"; "b/broken.proto"; "c/y.proto"])
              (Build_PluginOptions (C := Demo.collaborators)
                 Demo.HTML "" "index.html" [] true) "")
    as (before & dir & fds & after & [] & _ & _ & _ & H).
  - reflexivity.
  - reflexivity.
  - apply Exists_exists. exists ("b/", ["b/broken.proto"]).
    split; [vm_compute; set_solver | reflexivity].
  - exact H.
Defined.

(** Two requests whose render call fails in different groups get the same
    result from [Generate]: the error does not tell the group. *)
Lemma C4_error_without_group_key :
  exists o,
    ParseOptions (C := Demo.collaborators) Demo.brokenA = Ok o
    /\ ParseOptions (C := Demo.collaborators) Demo.brokenB = Ok o
    /\ failingDir o "" (Demo.ascending (groupsOf Demo.brokenA o)) = Some "a/"
    /\ failingDir o "" (Demo.ascending (groupsOf Demo.brokenB o)) = Some "b/"
    /\ Generate Demo.ascending Demo.brokenA = (None, Some (RenderFailure tt))
    /\ Generate Demo.ascending Demo.brokenB = (None, Some (RenderFailure tt)).
Proof.
  eexists. split; [reflexivity|]. split; [reflexivity|].
  repeat split; vm_compute; reflexivity.
Qed.

Lemma C1_determinism_amended_witness :
  match Generate (C := Demo.collaborators) Demo.ascending Demo.twoDirs,
        Generate (C := Demo.collaborators) Demo.descending Demo.twoDirs with
  | (Some resp1, None), (Some resp2, None) =>
      File resp1 ≡ₚ File resp2
      /\ ResponseSupportedFeatures resp1 = ResponseSupportedFeatures resp2
  | (None, Some _), (None, Some _) => True
  | _, _ => False
  end
  /\ Generate (C := Demo.collaborators) Demo.ascending
       (Demo.request "html,index.html" ["a/x.proto"; "b/y.proto"])
     = Generate (C := Demo.collaborators) Demo.descending
         (Demo.request "html,index.html" ["a/x.proto"; "b/y.proto"]).
Proof.
  split.
  - apply (C1_determinism_amended (C := Demo.collaborators)
             Demo.ascending Demo.descending Demo.twoDirs).
    + exact ascending_visits_all.
    + exact descending_visits_all.
  - destruct (C1_determinism_amended (C := Demo.collaborators)
                Demo.ascending Demo.descending
                (Demo.request "html,index.html" ["a/x.proto"; "b/y.proto"])
                ascending_visits_all descending_visits_all)
      as (_ & Hsingle & _).
    apply (Hsingle (Build_PluginOptions (C := Demo.collaborators)
                      Demo.HTML "" "index.html" [] false)); reflexivity.
Defined.

(** Two enumerations of the same groups, both visiting every group once,
    give responses that differ in the order of their entries. *)
Lemma C1_response_order_varies :
  range_visits_all (C := Demo.collaborators) Demo.ascending
  /\ range_visits_all (C := Demo.collaborators) Demo.descending
  /\ Generate Demo.ascending Demo.twoDirs
     = (Some {| File := [{| Name := "a/index.html"; Content := "a/x.proto" |};
                         {| Name := "b/index.html"; Content := "b/y.proto" |}];
                ResponseSupportedFeatures := Some 1%Z |}, None)
  /\ Generate Demo.descending Demo.twoDirs
     = (Some {| File := [{| Name := "b/index.html"; Content := "b/y.proto" |};
                         {| Name := "a/index.html"; Content := "a/x.proto" |}];
                ResponseSupportedFeatures := Some 1%Z |}, None)
  /\ Generate Demo.ascending Demo.twoDirs <> Generate Demo.descending Demo.twoDirs.
Proof.
  split; [exact ascending_visits_all|]. split; [exact descending_visits_all|].
  split; [vm_compute; reflexivity|]. split; [vm_compute; reflexivity|].
  vm_compute. discriminate.
Qed.

(** ** The properties of the specification: colons and exclusion patterns *)

Section ExclusionProperties.
Context {C : Collaborators}.

Lemma nonempty_length (s : string) : s <> "" -> (0 <? String.length s)%nat = true.
Proof. destruct s; [done | reflexivity]. Qed.

Lemma compilePatterns_all patterns compiled acc :
  Forall2 (fun s r => regexp_Compile s = inl r) patterns compiled ->
  compilePatterns patterns acc = Ok (acc ++ compiled)%list.
Proof.
  intros H. revert acc. induction H as [|s r patterns compiled Hs _ IH]; intros acc; simpl.
  - by rewrite app_nil_r.
  - by rewrite Hs, IH, <- app_assoc.
Qed.

Lemma compilePatterns_first_failure before pattern after compiled err acc :
  Forall2 (fun s r => regexp_Compile s = inl r) before compiled ->
  regexp_Compile pattern = inr err ->
  compilePatterns (before ++ pattern :: after)%list acc = Err (CompileFailure err).
Proof.
  intros H Herr. revert acc.
  induction H as [|s r before compiled Hs _ IH]; intros acc; simpl.
  - by rewrite Herr.
  - by rewrite Hs, IH.
Qed.

(** C3 (amended). When the parameter has a colon, the main parameter is a
    prefix of it and the exclusion-pattern list is the text between the
    colon that follows the main parameter and the next colon (or the end
    of the parameter): what comes after a further colon is not read.  That
    text, when not empty, is split at commas and the patterns are compiled
    in order; the compile error of the first pattern that fails is what
    [ParseOptions] returns, whatever the main parameter is; when all
    compile, they are the exclusion patterns with which the main parameter
    is parsed. *)
Theorem C3_exclusion_patterns_amended (req : CodeGeneratorRequest) :
  Contains (GetParameter req) ":" = true ->
  exists params excludePart,
    splitExcludePart (Split (GetParameter req) ":") = Some (params, excludePart)
    /\ Contains excludePart ":" = false
    /\ ((GetParameter req = params /\ excludePart = "")
        \/ exists tail,
             GetParameter req = params ++ ":" ++ excludePart ++ tail
             /\ (tail = "" \/ HasPrefix tail ":" = true))
    /\ (forall before pattern after compiled err,
          excludePart <> "" ->
          Split excludePart "," = (before ++ pattern :: after)%list ->
          Forall2 (fun s r => regexp_Compile s = inl r) before compiled ->
          regexp_Compile pattern = inr err ->
          ParseOptions req = Err (CompileFailure err))
    /\ (forall compiled,
          excludePart <> "" ->
          Forall2 (fun s r => regexp_Compile s = inl r) (Split excludePart ",") compiled ->
          ParseOptions req
          = parseMain params (withExcludePatterns defaultOptions compiled))
    /\ (excludePart = "" -> ParseOptions req = parseMain params defaultOptions).
Proof.
  intros Hc. destruct (Split_has_sep _ _ Hc) as (p0 & p1 & rest & HS).
  destruct (splitExcludePart_in_range p0 p1 rest) as (params & ex & Hsp).
  destruct (splitExcludePart_position _ _ _ _ _ _ HS Hsp) as [Hno Hpos].
  exists params, ex. rewrite HS. do 3 (split; [done|]).
  split; [|split].
  - intros before pattern after compiled err Hne Hsplit Hall Herr.
    unfold ParseOptions, parseExcludes. rewrite Hc, HS, Hsp.
    rewrite (nonempty_length _ Hne), Hsplit.
    by rewrite (compilePatterns_first_failure _ _ _ _ _ _ Hall Herr).
  - intros compiled Hne Hall.
    unfold ParseOptions, parseExcludes. rewrite Hc, HS, Hsp.
    rewrite (nonempty_length _ Hne).
    by rewrite (compilePatterns_all _ _ _ Hall).
  - intros ->. unfold ParseOptions, parseExcludes. by rewrite Hc, HS, Hsp.
Qed.


End ExclusionProperties.

Lemma C3_exclusion_patterns_amended_witness :
  ParseOptions (C := Demo.collaborators)
    (Demo.request "oops:^vendor/,(,b" [])
  = Err (CompileFailure "(")
  /\ ParseOptions (C := Demo.collaborators)
       (Demo.request "html,out.html:q,b" [])
     = parseMain "html,out.html"
         (withExcludePatterns defaultOptions [[Demo.Lit "q"]; [Demo.Lit "b"]]).
Proof.
  split.
  - destruct (C3_exclusion_patterns_amended (C := Demo.collaborators)
                (Demo.request "oops:^vendor/,(,b" []) eq_refl)
      as (params & excludePart & Hsp & _ & _ & Hfail & _).
    injection Hsp as <- <-.
    apply (Hfail ["^vendor/"] "(" ["b"]
             [[Demo.BeginText; Demo.Lit "v"; Demo.Lit "e"; Demo.Lit "n";
               Demo.Lit "d"; Demo.Lit "o"; Demo.Lit "r"; Demo.Lit "/"]]).
    + discriminate.
    + reflexivity.
    + repeat constructor.
    + reflexivity.
  - destruct (C3_exclusion_patterns_amended (C := Demo.collaborators)
                (Demo.request "html,out.html:q,b" []) eq_refl)
      as (params & excludePart & Hsp & _ & _ & _ & Hall & _).
    injection Hsp as <- <-.
    apply Hall; [discriminate | repeat constructor].
Defined.

(** The text after a second colon is not part of the exclusion-pattern
    list: of [html,out.html:a:b] only the pattern [a] is compiled. *)
Lemma C3_remainder_not_read :
  Spec.exclusionText "html,out.html:a:b" = "a:b"
  /\ splitExcludePart (Split "html,out.html:a:b" ":")
     = Some ("html,out.html", "a")
  /\ exists o,
       ParseOptions (C := Demo.collaborators) (Demo.request "html,out.html:a:b" [])
       = Ok o
       /\ ExcludePatterns o = [[Demo.Lit "a"]]
       /\ ~ Spec.compiledFrom (Spec.exclusionText "html,out.html:a:b")
              (ExcludePatterns o).
Proof.
  split; [reflexivity|]. split; [reflexivity|].
  eexists. split; [reflexivity|]. split; [reflexivity|].
  unfold Spec.compiledFrom. simpl. intros H.
  apply Forall2_cons_1 in H as [H _]. discriminate.
Qed.



(** The class of line 136 reaches past the letters: an underscore before
    the colon makes it a part of the path as a drive letter would. *)
Example underscore_as_drive_letter :
  winPathHeuristic "_" "\t.tmpl,o.html" = true
  /\ Spec.pathColon "_" "\t.tmpl,o.html" = false
  /\ ParseOptions (C := Demo.collaborators) (Demo.request "_:\t.tmpl,o.html" [])
     = Ok {| Type_ := Demo.HTML; TemplateFile := "_:\t.tmpl"; OutputFile := "o.html";
             ExcludePatterns := []; SourceRelative := false |}.
Proof. repeat split; reflexivity. Qed.

(** ** Further properties of [ParseOptions] *)

Section ParseOptionsProperties.
Context {C : Collaborators}.

Lemma Split_app_sep (s t : string) (sep : ascii) :
  Split (s ++ String sep t) sep = (Split s sep ++ Split t sep)%list.
Proof.
  induction s as [|a s IH]; simpl.
  - by rewrite Ascii.eqb_refl.
  - destruct (Ascii.eqb a sep); rewrite IH; [reflexivity|].
    destruct (Split s sep) eqn:E; [destruct (Split_not_nil _ _ E) | reflexivity].
Qed.

Lemma compilePatterns_error patterns acc e :
  compilePatterns patterns acc = Err e ->
  exists pattern err,
    pattern ∈ patterns /\ regexp_Compile pattern = inr err /\ e = CompileFailure err.
Proof.
  revert acc. induction patterns as [|pat patterns IH]; intros acc; simpl; [discriminate|].
  destruct (regexp_Compile pat) as [r|err] eqn:E.
  - intros H. destruct (IH _ H) as (pattern & err & Hin & Hc & ->).
    exists pattern, err. split; [by right | done].
  - injection 1 as <-. exists pat, err. split; [by left | done].
Qed.

Lemma parseExcludes_error params options e :
  parseExcludes params options = Err e ->
  Contains params ":" = true
  /\ exists pattern err, regexp_Compile pattern = inr err /\ e = CompileFailure err.
Proof.
  unfold parseExcludes. destruct (Contains params ":") eqn:Hc; [|discriminate].
  destruct (Split_has_sep _ _ Hc) as (p0 & p1 & rest & ->).
  destruct (splitExcludePart_in_range p0 p1 rest) as (ps & ex & ->).
  destruct (0 <? String.length ex)%nat; [|discriminate].
  destruct (compilePatterns _ _) as [compiled|e'] eqn:E; simpl; [discriminate|].
  injection 1 as <-. split; [reflexivity|].
  destruct (compilePatterns_error _ _ _ E) as (pattern & err & _ & Hp & ->). eauto.
Qed.

Lemma HasPrefix_first (c : ascii) (s : string) :
  HasPrefix (String c s) (String c "") = true.
Proof.
  unfold HasPrefix. simpl. destruct (ascii_dec c c); [|contradiction].
  by destruct s.
Qed.

(** The main parameter is a prefix of the parameter, followed by nothing
    or by a colon. *)
Lemma parseExcludes_prefix params options params' options' :
  parseExcludes params options = Ok (params', options') ->
  exists tail, params = params' ++ tail /\ (tail = "" \/ HasPrefix tail ":" = true).
Proof.
  unfold parseExcludes. destruct (Contains params ":") eqn:Hc.
  - destruct (Split_has_sep _ _ Hc) as (p0 & p1 & rest & HS). rewrite HS.
    destruct (splitExcludePart_in_range p0 p1 rest) as (ps & ex & Hsp). rewrite Hsp.
    intros H. assert (ps = params') as ->.
    { destruct (0 <? String.length ex)%nat.
      - apply bind_Ok in H as (? & _ & H). by injection H as <- _.
      - by injection H as <- _. }
    destruct (splitExcludePart_position _ _ _ _ _ _ HS Hsp)
      as [_ [[Hp _]|(tail & Hp & _)]].
    + exists "". split; [by rewrite append_nil_r | by left].
    + exists (":" ++ ex ++ tail). split; [done|]. right. apply HasPrefix_first.
  - injection 1 as <- _. exists "". split; [by rewrite append_nil_r | by left].
Qed.

Lemma parseMain_error params options e :
  parseMain params options = Err e ->
  e = InvalidParameter params /\ params <> "" /\ Spec.malformed params.
Proof.
  destruct (decide (params = "")) as [->|Hne]; [discriminate|].
  destruct (parseMain_cases params options Hne)
    as [[Hbad ->]|[_ (f1 & f2 & rest & _ & _ & ->)]]; [|discriminate].
  injection 1 as <-. done.
Qed.

(** The shape of what [path.Base] returns. *)
Lemma path_Base_shape (p : string) :
  path_Base p <> "" /\ (Contains (path_Base p) "/" = false \/ path_Base p = "/").
Proof.
  unfold path_Base. destruct (decide (p = "")); [split; [done | by left]|].
  destruct (decide (afterLast (stripTrailingSlashes p) "/" = "")) as [|Hne].
  - split; [done | by right].
  - split; [done | left; apply afterLast_clean].
Qed.

Lemma parseMain_patterns params options patterns :
  parseMain params (withExcludePatterns options patterns)
  = match parseMain params options with
    | Ok o => Ok (withExcludePatterns o patterns)
    | Err e => Err e
    end.
Proof.
  destruct (decide (params = "")) as [->|Hne]; [reflexivity|].
  destruct (parseMain_cases params options Hne)
    as [[Hbad E]|[_ (f1 & f2 & rest & HS & Hrest & E)]]; rewrite E.
  - destruct (parseMain_cases params (withExcludePatterns options patterns) Hne)
      as [[_ E']|[Hgood _]]; [exact E' | contradiction].
  - by rewrite (parseMain_wellformed _ _ _ _ _ HS Hrest).
Qed.

(** X1. An error of [ParseOptions] is the invalid-parameter error for the
    main parameter, which is then a non-empty, malformed prefix of the
    parameter, followed by nothing or by a colon; or it is the compile
    error of a pattern, and then the parameter has a colon.  It is never
    another error, nor an index out of range. *)
Theorem ParseOptions_errors (req : CodeGeneratorRequest) (e : error) :
  ParseOptions req = Err e ->
  (exists params tail,
     e = InvalidParameter params
     /\ params <> ""
     /\ GetParameter req = params ++ tail
     /\ (tail = "" \/ HasPrefix tail ":" = true)
     /\ Spec.malformed params)
  \/ (exists pattern err,
        e = CompileFailure err
        /\ regexp_Compile pattern = inr err
        /\ Contains (GetParameter req) ":" = true).
Proof.
  unfold ParseOptions.
  destruct (parseExcludes _ _) as [[params options]|e'] eqn:HE.
  - intros H. apply parseMain_error in H as (-> & Hne & Hbad).
    destruct (parseExcludes_prefix _ _ _ _ HE) as (tail & Hp & Ht).
    left. exists params, tail. done.
  - injection 1 as <-. apply parseExcludes_error in HE as (Hc & pattern & err & Hp & ->).
    right. exists pattern, err. done.
Qed.

(** X2. A configuration that [ParseOptions] returns has a non-empty output
    file name without a slash (or the name is the single slash); it has a
    template file only together with the default renderer kind, and that
    template file is no renderer name; and without a colon in the parameter
    it has no exclusion pattern. *)
Theorem ParseOptions_invariants (req : CodeGeneratorRequest) (o : PluginOptions) :
  ParseOptions req = Ok o ->
  OutputFile o <> ""
  /\ (Contains (OutputFile o) "/" = false \/ OutputFile o = "/")
  /\ (TemplateFile o = ""
      \/ (Type_ o = RenderTypeHTML
          /\ exists e, NewRenderType (TemplateFile o) = inr e))
  /\ (Contains (GetParameter req) ":" = false -> ExcludePatterns o = []).
Proof.
  unfold ParseOptions.
  destruct (parseExcludes _ _) as [[params options]|e'] eqn:HE; [|discriminate].
  pose proof (parseExcludes_options _ _ _ _ HE) as Ho.
  assert (Hpat : Contains (GetParameter req) ":" = false -> ExcludePatterns options = []).
  { intros Hc. rewrite parseExcludes_no_colon in HE by assumption.
    by injection HE as _ <-. }
  destruct (decide (params = "")) as [->|Hne].
  - injection 1 as <-. rewrite Ho. simpl. repeat split; [done | by left | by left |].
    exact Hpat.
  - destruct (parseMain_cases params options Hne)
      as [[_ ->]|[_ (f1 & f2 & rest & _ & _ & ->)]]; [discriminate|].
    injection 1 as <-. unfold configured. simpl.
    destruct (path_Base_shape f2) as [Hb1 Hb2].
    repeat split; [done | done | | exact Hpat].
    destruct (NewRenderType f1) as [k|e] eqn:Hk; [by left|].
    right. rewrite Ho. simpl. eauto.
Qed.

(** X3. A parameter that is a colon followed by a non-empty list of
    patterns without a further colon gives the default configuration with
    these patterns, compiled in order. *)
Theorem exclusion_only_parameter (req : CodeGeneratorRequest)
  (excludePart : string) (compiled : list Regexp) :
  GetParameter req = ":" ++ excludePart ->
  excludePart <> "" ->
  Contains excludePart ":" = false ->
  Forall2 (fun s r => regexp_Compile s = inl r) (Split excludePart ",") compiled ->
  ParseOptions req
  = Ok {| Type_ := RenderTypeHTML;
          TemplateFile := "";
          OutputFile := "index.html";
          ExcludePatterns := compiled;
          SourceRelative := false |}.
Proof.
  intros Hp Hne Hc Hall. unfold ParseOptions, parseExcludes. rewrite Hp. simpl.
  rewrite (Split_no_sep _ _ Hc). simpl.
  assert (Hh : winPathHeuristic "" excludePart = false).
  { unfold winPathHeuristic. by destruct (HasPrefix excludePart "\"). }
  rewrite Hh, (nonempty_length _ Hne), (compilePatterns_all _ _ _ Hall).
  reflexivity.
Qed.

(** X4. Exclusions do not touch the rest of the configuration: when a main
    parameter without a colon is followed by a colon and a non-empty list
    of patterns that compile, and the colon is not taken for a part of a
    path, the result is the one for the main parameter alone with the
    compiled patterns as exclusion patterns (and the same error if the
    main parameter is malformed). *)
Theorem exclusions_leave_main_configuration (req req' : CodeGeneratorRequest)
  (excludePart : string) (compiled : list Regexp) :
  GetParameter req' = GetParameter req ++ ":" ++ excludePart ->
  Contains (GetParameter req) ":" = false ->
  Contains excludePart ":" = false ->
  excludePart <> "" ->
  winPathHeuristic (GetParameter req) excludePart = false ->
  Forall2 (fun s r => regexp_Compile s = inl r) (Split excludePart ",") compiled ->
  ParseOptions req'
  = match ParseOptions req with
    | Ok o => Ok (withExcludePatterns o compiled)
    | Err e => Err e
    end.
Proof.
  intros Hp Hm Hc Hne Hh Hall.
  unfold ParseOptions at 2. rewrite (parseExcludes_no_colon _ _ Hm).
  rewrite <- parseMain_patterns.
  unfold ParseOptions, parseExcludes. rewrite Hp.
  rewrite Contains_app. simpl. rewrite orb_true_r.
  change (":" ++ excludePart) with (String ":" excludePart).
  rewrite Split_app_sep, (Split_no_sep _ _ Hm), (Split_no_sep _ _ Hc). simpl.
  rewrite Hh, (nonempty_length _ Hne), (compilePatterns_all _ _ _ Hall).
  reflexivity.
Qed.

(** X5. When the one colon of a parameter is taken for a part of a path
    (a backslash after it, and before it a byte of the class that is the
    first byte or follows a comma), nothing is excluded: the whole
    parameter is parsed as the main parameter, so the result is either a
    configuration without exclusion patterns or the invalid-parameter
    error for the whole parameter. *)
Theorem path_colon_excludes_nothing (req : CodeGeneratorRequest) (main rest : string) :
  GetParameter req = main ++ ":" ++ rest ->
  Contains main ":" = false ->
  Contains rest ":" = false ->
  winPathHeuristic main rest = true ->
  ParseOptions req = parseMain (GetParameter req) defaultOptions
  /\ match ParseOptions req with
     | Ok o => ExcludePatterns o = []
     | Err e => e = InvalidParameter (GetParameter req)
     end.
Proof.
  intros Hp Hm Hr Hh.
  assert (E : ParseOptions req = parseMain (GetParameter req) defaultOptions).
  { unfold ParseOptions, parseExcludes. rewrite Hp.
    rewrite Contains_app. simpl. rewrite orb_true_r.
    change (":" ++ rest) with (String ":" rest).
    rewrite Split_app_sep, (Split_no_sep _ _ Hm), (Split_no_sep _ _ Hr). simpl.
    by rewrite Hh. }
  split; [exact E|]. rewrite E.
  destruct (parseMain _ _) as [o|e] eqn:HM.
  - destruct (decide (GetParameter req = "")) as [H0|Hne].
    + rewrite H0 in HM. by injection HM as <-.
    + destruct (parseMain_cases _ defaultOptions Hne)
        as [[_ E']|[_ (f1 & f2 & fs & _ & _ & E')]]; rewrite E' in HM; [discriminate|].
      by injection HM as <-.
  - by apply parseMain_error in HM as (-> & _).
Qed.

(** X6. The mode [default] is the absent mode, and [source_relative]
    differs from it in the grouping flag only: for a parameter of two
    fields without a colon, appending [,default] gives the same
    configuration, and appending [,source_relative] gives the same
    configuration with relative grouping. *)
Theorem mode_field_effect (req reqDefault reqRelative : CodeGeneratorRequest)
  (f1 f2 : string) :
  Contains (GetParameter req) ":" = false ->
  Split (GetParameter req) "," = [f1; f2] ->
  GetParameter reqDefault = GetParameter req ++ ",default" ->
  GetParameter reqRelative = GetParameter req ++ ",source_relative" ->
  ParseOptions reqDefault = ParseOptions req
  /\ exists o,
       ParseOptions req = Ok o
       /\ SourceRelative o = false
       /\ ParseOptions reqRelative = Ok (withSourceRelative o true).
Proof.
  intros Hc HS Hd Hr.
  assert (Hsplit : forall mode,
    Contains mode ":" = false -> Contains mode "," = false ->
    Contains (GetParameter req ++ String "," mode) ":" = false
    /\ Split (GetParameter req ++ String "," mode) "," = [f1; f2; mode]).
  { intros mode Hm1 Hm2. split.
    - rewrite Contains_app, Hc. simpl. exact Hm1.
    - by rewrite Split_app_sep, HS, (Split_no_sep _ _ Hm2). }
  assert (E : ParseOptions req = Ok (configured defaultOptions f1 f2 [])).
  { unfold ParseOptions. rewrite (parseExcludes_no_colon _ _ Hc).
    apply parseMain_wellformed; [done | by left]. }
  split.
  - destruct (Hsplit "default" eq_refl eq_refl) as [Hc' HS'].
    rewrite E. unfold ParseOptions. rewrite Hd.
    change ",default" with (String "," "default").
    rewrite (parseExcludes_no_colon _ _ Hc').
    by rewrite (parseMain_wellformed _ _ _ _ _ HS' (or_intror (or_intror eq_refl))).
  - eexists. split; [exact E|]. split; [reflexivity|].
    destruct (Hsplit "source_relative" eq_refl eq_refl) as [Hc' HS'].
    unfold ParseOptions. rewrite Hr.
    change ",source_relative" with (String "," "source_relative").
    rewrite (parseExcludes_no_colon _ _ Hc').
    by rewrite (parseMain_wellformed _ _ _ _ _ HS' (or_intror (or_introl eq_refl))).
Qed.

End ParseOptionsProperties.

(** ** Further properties of the filter and of the grouping *)

Section FilterGroupComposition.
Context {C : Collaborators}.

Implicit Types (fds : list FileDescriptor) (pats : list Regexp).

Lemma exclude_as_filter fds pats :
  excludeUnwantedProtos fds pats
  = List.filter (fun d => negb (matchesAnyPattern pats (GetName d))) fds.
Proof. unfold excludeUnwantedProtos. by rewrite excludeLoop_filter. Qed.


Lemma matchesAnyPattern_app pats1 pats2 name :
  matchesAnyPattern (pats1 ++ pats2) name
  = matchesAnyPattern pats1 name || matchesAnyPattern pats2 name.
Proof. by rewrite !matchesAnyPattern_existsb, existsb_app. Qed.

Lemma matchesAnyPattern_Permutation pats1 pats2 name :
  pats1 ≡ₚ pats2 -> matchesAnyPattern pats1 name = matchesAnyPattern pats2 name.
Proof.
  induction 1 as [|p l l' _ IH|p q l|l l' l'' _ IH1 _ IH2]; simpl.
  - reflexivity.
  - by rewrite IH.
  - by destruct (MatchString p name), (MatchString q name).
  - by rewrite IH1.
Qed.

Lemma filter_filter {A} (f g : A -> bool) (l : list A) :
  List.filter g (List.filter f l) = List.filter (fun x => f x && g x) l.
Proof.
  induction l as [|x l IH]; simpl; [reflexivity|].
  destruct (f x); simpl; [|exact IH]. destruct (g x); by rewrite IH.
Qed.

(** X7. Exclusion composes: excluding by two pattern lists one after the
    other is excluding by their concatenation; excluding again by the same
    patterns changes nothing; the order of the patterns does not matter;
    and the result is never longer than the input. *)
Theorem exclude_composes fds pats1 pats2 :
  excludeUnwantedProtos (excludeUnwantedProtos fds pats1) pats2
  = excludeUnwantedProtos fds (pats1 ++ pats2)
  /\ excludeUnwantedProtos (excludeUnwantedProtos fds pats1) pats1
     = excludeUnwantedProtos fds pats1
  /\ (pats1 ≡ₚ pats2 ->
      excludeUnwantedProtos fds pats1 = excludeUnwantedProtos fds pats2)
  /\ List.length (excludeUnwantedProtos fds pats1) <= List.length fds.
Proof.
  split; [|split; [|split]].
  - rewrite !exclude_as_filter, filter_filter. apply filter_ext. intros d.
    by rewrite matchesAnyPattern_app, negb_orb.
  - rewrite !exclude_as_filter, filter_filter. apply filter_ext. intros d.
    by destruct (matchesAnyPattern pats1 (GetName d)).
  - intros Hp. rewrite !exclude_as_filter. apply filter_ext. intros d.
    by rewrite (matchesAnyPattern_Permutation _ _ _ Hp).
  - rewrite exclude_as_filter. apply filter_length_le.
Qed.

Lemma uptoLast_ends (s : string) (sep : ascii) :
  Contains s sep = true -> exists d, uptoLast s sep = d ++ String sep "".
Proof.
  induction s as [|a s IH]; simpl; [discriminate|].
  destruct (Contains s sep) eqn:E.
  - intros _. destruct (IH eq_refl) as (d & ->). by exists (String a d).
  - destruct (Ascii.eqb a sep) eqn:Ea; [|discriminate].
    apply Ascii.eqb_eq in Ea as ->. intros _. by exists "".
Qed.

Lemma groupDir_shape sourceRelative (fd : FileDescriptor) :
  exists d, groupDir sourceRelative fd = d ++ "/".
Proof.
  unfold groupDir. destruct sourceRelative; simpl; [|by exists "."].
  destruct (decide (uptoLast (GetName fd) "/" = "")) as [|Hne]; [by exists "."|].
  destruct (Contains (GetName fd) "/") eqn:E.
  - by apply uptoLast_ends.
  - by rewrite uptoLast_no_sep in Hne.
Qed.

(** X8. The groups partition the descriptors: every group is non-empty and
    lists, in input order, exactly the descriptors of its key; its key is
    not empty and ends with a slash; every descriptor is in the group of
    its key; and there is no group at all exactly when there is no
    descriptor. *)
Theorem groups_partition fds (sourceRelative : bool) :
  (forall k l,
     groupProtosByDirectory fds sourceRelative !! k = Some l ->
     l <> []
     /\ l `sublist_of` fds
     /\ (exists d, k = d ++ "/")
     /\ forall fd, fd ∈ l <-> fd ∈ fds /\ groupDir sourceRelative fd = k)
  /\ (forall fd, fd ∈ fds ->
        exists l, groupProtosByDirectory fds sourceRelative !! groupDir sourceRelative fd
                  = Some l
                  /\ fd ∈ l)
  /\ (groupProtosByDirectory fds sourceRelative = ∅ <-> fds = []).
Proof.
  assert (Hmem : forall k fd,
    fd ∈ List.filter (fun fd => bool_decide (groupDir sourceRelative fd = k)) fds
    <-> fd ∈ fds /\ groupDir sourceRelative fd = k).
  { intros k fd. by rewrite !list_elem_of_In, filter_In, bool_decide_eq_true. }
  assert (Hin : forall fd, fd ∈ fds ->
    exists l, groupProtosByDirectory fds sourceRelative !! groupDir sourceRelative fd
              = Some l /\ fd ∈ l).
  { intros fd Hfd. rewrite groupProtosByDirectory_lookup.
    assert (H : fd ∈ List.filter
                  (fun fd' => bool_decide
                     (groupDir sourceRelative fd' = groupDir sourceRelative fd)) fds)
      by by apply Hmem.
    destruct (List.filter _ fds) as [|x l]; [by apply elem_of_nil in H|]. eauto. }
  split; [|split; [exact Hin|]].
  - intros k l. rewrite groupProtosByDirectory_lookup.
    pose proof (filter_sublist
      (fun fd => bool_decide (groupDir sourceRelative fd = k)) fds) as Hsub.
    specialize (Hmem k).
    destruct (List.filter _ fds) as [|x l'] eqn:E; [discriminate|].
    injection 1 as <-. split; [done|]. split; [done|]. split; [|exact Hmem].
    destruct (Hmem x) as [Hx _]. destruct Hx as [_ <-]; [by left|].
    apply groupDir_shape.
  - split.
    + intros Hempty. destruct fds as [|fd fds']; [done|].
      destruct (Hin fd) as (l & Hl & _); [by left|].
      by rewrite Hempty, lookup_empty in Hl.
    + by intros ->.
Qed.


End FilterGroupComposition.

(** ** Further properties of [Generate] *)

Section GenerateProperties.
Context {C : Collaborators}.

Implicit Types (groups : list (string * list FileDescriptor)).

Lemma ParseOptions_error_kind (req : CodeGeneratorRequest) (e : error) :
  ParseOptions req = Err e ->
  (exists params, e = InvalidParameter params) \/ (exists err, e = CompileFailure err).
Proof.
  unfold ParseOptions.
  destruct (parseExcludes _ _) as [[params options]|e'] eqn:HE.
  - intros H. apply parseMain_error in H as (-> & _). eauto.
  - injection 1 as <-. apply parseExcludes_error in HE as (_ & ? & err & _ & ->). eauto.
Qed.

Lemma readCustomTemplate_error (o : PluginOptions) (e : error) :
  readCustomTemplate o = Err e ->
  exists err, e = ReadFailure err
              /\ TemplateFile o <> "" /\ ReadFile (TemplateFile o) = inr err.
Proof.
  unfold readCustomTemplate. destruct (decide (TemplateFile o <> "")); [|discriminate].
  destruct (ReadFile (TemplateFile o)) as [|err] eqn:E; [discriminate|].
  injection 1 as <-. eauto.
Qed.

Lemma renderGroups_error (o : PluginOptions) customTemplate groups files e :
  renderGroups o customTemplate groups files = Err e ->
  exists err, e = RenderFailure err.
Proof.
  revert files. induction groups as [|[dir fds] groups IH]; intros files; simpl.
  - discriminate.
  - destruct (RenderTemplate _ _ _) as [|err]; [apply IH|].
    injection 1 as <-. eauto.
Qed.

Lemma renderGroups_Ok (o : PluginOptions) customTemplate groups files out :
  renderGroups o customTemplate groups files = Ok out ->
  Forall (fun g => rendersOk o customTemplate g = true) groups
  /\ out = (files ++ map (responseFile o customTemplate) groups)%list.
Proof.
  destruct (rendersOk_decide o customTemplate groups) as [Hok|Hbad].
  - rewrite (renderGroups_all_ok _ _ _ _ Hok). by injection 1 as <-.
  - destruct (first_failing_group _ _ _ Hbad)
      as (before & dir & fds & after & err & -> & Hb & Herr).
    by rewrite (renderGroups_first_failure _ _ _ _ _ _ _ _ Hb Herr).
Qed.

Lemma entryOf_rendered (o : PluginOptions) customTemplate groups fs :
  Forall2 (entryOf o customTemplate) groups fs
  <-> Forall (fun g => rendersOk o customTemplate g = true) groups
      /\ fs = map (responseFile o customTemplate) groups.
Proof.
  split.
  - induction 1 as [|g f groups fs [Hn Hc] _ [IH1 IH2]]; [done|].
    split.
    + constructor; [|done]. unfold rendersOk. by rewrite Hc.
    + simpl. rewrite <- IH2. f_equal. unfold responseFile. rewrite Hc, <- Hn.
      by destruct f.
  - intros [Hok ->]. induction Hok as [|g groups Hg _ IH]; simpl; constructor; [|done].
    unfold rendersOk, entryOf, responseFile in *. simpl.
    by destruct (RenderTemplate _ _ _).
Qed.

Lemma filepath_Join_sentinel (file : string) :
  file <> "" -> Contains file "/" = false -> filepath_Join "./" file = file.
Proof.
  intros Hne Hf. unfold filepath_Join, filepath_Clean. simpl.
  rewrite (Split_no_sep _ _ Hf). simpl.
  destruct (decide (file = "")); [done|].
  destruct (decide (file = ".")) as [->|]; [reflexivity|].
  destruct (decide (file = "..")) as [->|]; [reflexivity|]. simpl.
  by destruct (decide (file = "")).
Qed.


(** X11. [Generate] succeeds exactly when the parameter parses, the
    template file (if any) can be read and every group renders; its
    response then has one entry per group, in the order in which the
    groups are visited, each with the path joined from the group key and
    the output file name and with the rendered text of the group as content,
    and it carries the feature flag. *)
Theorem Generate_success (range : MapRange) (req : CodeGeneratorRequest)
  (resp : CodeGeneratorResponse) :
  Generate range req = (Some resp, None)
  <-> exists o customTemplate,
        ParseOptions req = Ok o
        /\ readCustomTemplate o = Ok customTemplate
        /\ Forall2 (entryOf o customTemplate) (range (groupsOf req o)) (File resp)
        /\ ResponseSupportedFeatures resp = Some SupportedFeatures.
Proof.
  split.
  - unfold Generate. destruct (ParseOptions req) as [o|e] eqn:HP; [|discriminate].
    destruct (readCustomTemplate o) as [ct|e] eqn:HR; [|discriminate].
    fold (groupsOf req o).
    destruct (renderGroups _ _ _ _) as [files|e] eqn:HG; [|discriminate].
    injection 1 as <-. exists o, ct. repeat split; try done. simpl.
    apply renderGroups_Ok in HG as [Hok ->]. by apply entryOf_rendered.
  - intros (o & ct & HP & HR & Hent & Hflag).
    apply entryOf_rendered in Hent as [Hok Hfiles].
    rewrite (Generate_rendered _ _ _ _ HP HR), (renderGroups_all_ok _ _ _ _ Hok).
    simpl. rewrite <- Hfiles, <- Hflag. by destruct resp.
Qed.

(** X12. When no descriptor is left after the exclusion, [Generate] returns
    a response without entries, and no render call decides on it. *)
Theorem Generate_nothing_to_render (range : MapRange) (req : CodeGeneratorRequest)
  (o : PluginOptions) (customTemplate : string) :
  range_visits_all range ->
  ParseOptions req = Ok o ->
  readCustomTemplate o = Ok customTemplate ->
  excludeUnwantedProtos (ParseCodeGenRequest req) (ExcludePatterns o) = [] ->
  Generate range req
  = (Some {| File := []; ResponseSupportedFeatures := Some SupportedFeatures |}, None).
Proof.
  intros Hr HP HR Hnone. rewrite (Generate_rendered _ _ _ _ HP HR).
  unfold groupsOf. rewrite Hnone.
  assert (E : range (groupProtosByDirectory [] (SourceRelative o)) = []).
  { unfold groupProtosByDirectory. simpl.
    apply Permutation_nil_r. rewrite (Hr _). by rewrite map_to_list_empty. }
  by rewrite E.
Qed.

(** X13. [Generate] fails with a read error exactly when the parameter
    parses to a configuration with a template file and reading that file
    fails with this error; a parameter that names a renderer never has
    the file system read. *)
Theorem Generate_read_failure (range : MapRange) (req : CodeGeneratorRequest)
  (err : ReadError) :
  Generate range req = (None, Some (ReadFailure err))
  <-> exists o,
        ParseOptions req = Ok o
        /\ TemplateFile o <> ""
        /\ ReadFile (TemplateFile o) = inr err.
Proof.
  split.
  - unfold Generate. destruct (ParseOptions req) as [o|e] eqn:HP.
    2:{ injection 1 as ->.
        destruct (ParseOptions_error_kind _ _ HP) as [[? ?]|[? ?]]; discriminate. }
    destruct (readCustomTemplate o) as [ct|e] eqn:HR.
    + destruct (renderGroups _ _ _ _) as [files|e] eqn:HG; [discriminate|].
      injection 1 as ->. by destruct (renderGroups_error _ _ _ _ _ HG).
    + injection 1 as ->.
      destruct (readCustomTemplate_error _ _ HR) as (err' & [= <-] & Hne & Hread).
      eauto.
  - intros (o & HP & Hne & Hread). unfold Generate, readCustomTemplate.
    rewrite HP. destruct (decide (TemplateFile o <> "")); [|done].
    by rewrite Hread.
Qed.

(** X14. In single-output mode, when a descriptor is left after the
    exclusion and the render call succeeds, the response is the one entry
    whose path is the output file name itself and whose content is the
    rendering of all descriptors left, in input order. *)
Theorem single_output_entry (range : MapRange) (req : CodeGeneratorRequest)
  (o : PluginOptions) (customTemplate : string)
  (fd : FileDescriptor) (fds : list FileDescriptor) (output : string) :
  range_visits_all range ->
  ParseOptions req = Ok o ->
  SourceRelative o = false ->
  OutputFile o <> "/" ->
  readCustomTemplate o = Ok customTemplate ->
  excludeUnwantedProtos (ParseCodeGenRequest req) (ExcludePatterns o) = fd :: fds ->
  RenderTemplate (Type_ o) (NewTemplate (fd :: fds)) customTemplate = inl output ->
  Generate range req
  = (Some {| File := [{| Name := OutputFile o; Content := output |}];
             ResponseSupportedFeatures := Some SupportedFeatures |}, None).
Proof.
  intros Hr HP Hsr Hslash HR Hleft Hout.
  rewrite (Generate_rendered _ _ _ _ HP HR).
  unfold groupsOf. rewrite Hleft, Hsr, single_output_groups.
  assert (E : range {["./" := fd :: fds]} = [("./", fd :: fds)]).
  { apply Permutation_singleton_r. rewrite (Hr _). by rewrite map_to_list_singleton. }
  rewrite E. simpl. rewrite Hout. simpl.
  assert (Hname : filepath_Join "./" (OutputFile o) = OutputFile o).
  { unfold ParseOptions in HP.
    destruct (parseExcludes _ _) as [[params options]|] eqn:HE; [|discriminate].
    pose proof (parseExcludes_options _ _ _ _ HE) as Ho.
    destruct (decide (params = "")) as [->|Hne].
    - injection HP as <-. rewrite Ho. reflexivity.
    - destruct (parseMain_cases params options Hne)
        as [[_ E']|[_ (f1 & f2 & rest & _ & _ & E')]];
        rewrite E' in HP; [discriminate|].
      injection HP as <-. simpl in *.
      destruct (path_Base_shape f2) as [Hb1 [Hb2|Hb2]]; [|done].
      by apply filepath_Join_sentinel. }
  by rewrite Hname.
Qed.

End GenerateProperties.

(** ** Further properties of the library functions *)

Section GoLibProperties.

Implicit Types (s p : string) (sep : ascii).

Lemma append_sep_Contains s t sep : Contains (s ++ String sep t) sep = true.
Proof. rewrite Contains_app. simpl. by rewrite Ascii.eqb_refl, orb_true_r. Qed.

Lemma stripTrailingSlashes_slash s :
  stripTrailingSlashes (s ++ "/") = stripTrailingSlashes s.
Proof.
  induction s as [|a s IH]; simpl; [reflexivity|]. by rewrite IH.
Qed.

(** X15. Splitting and joining are inverse to each other: the pieces of a
    text, joined by the separator, are the text; and a non-empty list of
    pieces without the separator is what splitting their join gives.  No
    piece of a split holds the separator, and there are two pieces or more
    exactly when the text holds it. *)
Theorem Split_Join_round_trip (sep : ascii) :
  (forall s, Join (Split s sep) sep = s)
  /\ (forall pieces,
        pieces <> [] ->
        Forall (fun piece => Contains piece sep = false) pieces ->
        Split (Join pieces sep) sep = pieces)
  /\ (forall s, Forall (fun piece => Contains piece sep = false) (Split s sep))
  /\ (forall s, Contains s sep = true <-> 2 <= List.length (Split s sep)).
Proof.
  split; [intros s; apply Join_Split|]. split; [|split].
  - intros pieces Hne Hall. induction Hall as [|x l Hx Hl IH]; [done|].
    destruct l as [|y l].
    + simpl. by apply Split_no_sep.
    + rewrite Join_cons_cons, Split_app_sep, (Split_no_sep _ _ Hx), IH by done.
      reflexivity.
  - intros s. apply Split_pieces.
  - intros s. rewrite Split_length_Contains. apply bool_decide_eq_true.
Qed.

(** X16. [filepath.Split] cuts a name into the one pair of a directory part
    and a file part such that the two give back the name, the file part
    has no slash, and the directory part is empty or ends with a slash. *)
Theorem filepath_Split_characterised (name dir file : string) :
  filepath_Split name = (dir, file)
  <-> dir ++ file = name
      /\ Contains file "/" = false
      /\ (dir = "" \/ exists d, dir = d ++ "/").
Proof.
  unfold filepath_Split. split.
  - injection 1 as <- <-. split; [apply uptoLast_afterLast|].
    split; [apply afterLast_clean|].
    destruct (Contains name "/") eqn:E.
    + right. by apply uptoLast_ends.
    + left. by apply uptoLast_no_sep.
  - intros (<- & Hf & [->|(d & ->)]).
    + simpl. by rewrite uptoLast_no_sep, afterLast_no_sep.
    + rewrite append_assoc. simpl.
      by rewrite uptoLast_dir, afterLast_dir.
Qed.

(** X17. [path.Base] never returns the empty text; what it returns has no
    slash unless it is the single slash; applying it twice is applying it
    once; and a slash at the end of a non-empty path does not change it. *)
Theorem path_Base_properties (p : string) :
  path_Base p <> ""
  /\ (Contains (path_Base p) "/" = false \/ path_Base p = "/")
  /\ path_Base (path_Base p) = path_Base p
  /\ (p <> "" -> path_Base (p ++ "/") = path_Base p).
Proof.
  assert (Hshape : path_Base p <> ""
                   /\ (Contains (path_Base p) "/" = false \/ path_Base p = "/")).
  { unfold path_Base. destruct (decide (p = "")); [split; [done | by left]|].
    destruct (decide (afterLast (stripTrailingSlashes p) "/" = "")) as [|Hne].
    - split; [done | by right].
    - split; [done | left; apply afterLast_clean]. }
  destruct Hshape as [Hne Hs]. split; [done|]. split; [done|]. split.
  - destruct Hs as [Hs| ->]; [by apply path_Base_file | reflexivity].
  - intros Hp. unfold path_Base.
    destruct (decide (p ++ "/" = "")) as [E|_]; [by destruct p|].
    destruct (decide (p = "")); [done|]. by rewrite stripTrailingSlashes_slash.
Qed.

End GoLibProperties.

(** ** The further properties on concrete requests *)

Lemma ParseOptions_errors_witness :
  (exists params tail,
     InvalidParameter (C := Demo.collaborators) "html,out.html,relative"
     = InvalidParameter params
     /\ params <> ""
     /\ "html,out.html,relative:^vendor/" = params ++ tail
     /\ (tail = "" \/ HasPrefix tail ":" = true)
     /\ Spec.malformed params)
  \/ (exists pattern err,
        InvalidParameter (C := Demo.collaborators) "html,out.html,relative"
        = CompileFailure err
        /\ regexp_Compile pattern = inr err
        /\ Contains "html,out.html,relative:^vendor/" ":" = true).
Proof.
  apply (ParseOptions_errors (C := Demo.collaborators)
           (Demo.request "html,out.html,relative:^vendor/" [])
           (InvalidParameter "html,out.html,relative")).
  reflexivity.
Defined.

Lemma ParseOptions_invariants_witness :
  "out.html" <> ""
  /\ (Contains "out.html" "/" = false \/ "out.html" = "/")
  /\ ("x.tmpl" = ""
      \/ (Demo.HTML = Demo.HTML /\ exists e, Demo.lookupKind "x.tmpl" = inr e))
  /\ (Contains "x.tmpl,doc/out.html" ":" = false -> @nil (list Demo.atom) = []).
Proof.
  apply (ParseOptions_invariants (C := Demo.collaborators)
           (Demo.request "x.tmpl,doc/out.html" [])
           (Build_PluginOptions (C := Demo.collaborators)
              Demo.HTML "x.tmpl" "out.html" [] false)).
  reflexivity.
Defined.

Lemma exclusion_only_parameter_witness :
  ParseOptions (C := Demo.collaborators) (Demo.request ":^vendor/,b" [])
  = Ok {| Type_ := Demo.HTML;
          TemplateFile := "";
          OutputFile := "index.html";
          ExcludePatterns :=
            [[Demo.BeginText; Demo.Lit "v"; Demo.Lit "e"; Demo.Lit "n";
              Demo.Lit "d"; Demo.Lit "o"; Demo.Lit "r"; Demo.Lit "/"];
             [Demo.Lit "b"]];
          SourceRelative := false |}.
Proof.
  apply (exclusion_only_parameter (C := Demo.collaborators)
           (Demo.request ":^vendor/,b" []) "^vendor/,b").
  - reflexivity.
  - discriminate.
  - reflexivity.
  - repeat constructor.
Defined.

Lemma exclusions_leave_main_configuration_witness :
  ParseOptions (C := Demo.collaborators)
    (Demo.request "markdown,doc/api.md,source_relative:q,b" [])
  = Ok {| Type_ := Demo.Markdown;
          TemplateFile := "";
          OutputFile := "api.md";
          ExcludePatterns := [[Demo.Lit "q"]; [Demo.Lit "b"]];
          SourceRelative := true |}.
Proof.
  apply (exclusions_leave_main_configuration (C := Demo.collaborators)
           (Demo.request "markdown,doc/api.md,source_relative" [])
           (Demo.request "markdown,doc/api.md,source_relative:q,b" [])
           "q,b" [[Demo.Lit "q"]; [Demo.Lit "b"]]).
  - reflexivity.
  - reflexivity.
  - reflexivity.
  - discriminate.
  - reflexivity.
  - repeat constructor.
Defined.

Lemma path_colon_excludes_nothing_witness :
  ParseOptions (C := Demo.collaborators) (Demo.request "html,a:\.proto$" [])
  = parseMain "html,a:\.proto$" defaultOptions
  /\ match ParseOptions (C := Demo.collaborators)
             (Demo.request "html,a:\.proto$" []) with
     | Ok o => ExcludePatterns o = []
     | Err e => e = InvalidParameter "html,a:\.proto$"
     end.
Proof.
  apply (path_colon_excludes_nothing (C := Demo.collaborators)
           (Demo.request "html,a:\.proto$" []) "html,a" "\.proto$");
    reflexivity.
Defined.

Lemma mode_field_effect_witness :
  ParseOptions (C := Demo.collaborators) (Demo.request "json,out.json,default" [])
  = ParseOptions (C := Demo.collaborators) (Demo.request "json,out.json" [])
  /\ exists o,
       ParseOptions (C := Demo.collaborators) (Demo.request "json,out.json" []) = Ok o
       /\ SourceRelative o = false
       /\ ParseOptions (C := Demo.collaborators)
            (Demo.request "json,out.json,source_relative" [])
          = Ok (withSourceRelative o true).
Proof.
  apply (mode_field_effect (C := Demo.collaborators)
           (Demo.request "json,out.json" [])
           (Demo.request "json,out.json,default" [])
           (Demo.request "json,out.json,source_relative" [])
           "json" "out.json"); reflexivity.
Defined.

Lemma exclude_composes_witness :
  excludeUnwantedProtos (C := Demo.collaborators)
    ["a/x.proto"; "vendor/y.proto"; "b/z.proto"]
    [[Demo.Lit "z"]; [Demo.BeginText; Demo.Lit "v"]]
  = excludeUnwantedProtos (C := Demo.collaborators)
      ["a/x.proto"; "vendor/y.proto"; "b/z.proto"]
      [[Demo.BeginText; Demo.Lit "v"]; [Demo.Lit "z"]].
Proof.
  apply (exclude_composes (C := Demo.collaborators)
           ["a/x.proto"; "vendor/y.proto"; "b/z.proto"]
           [[Demo.Lit "z"]; [Demo.BeginText; Demo.Lit "v"]]
           [[Demo.BeginText; Demo.Lit "v"]; [Demo.Lit "z"]]).
  apply Permutation_swap.
Defined.

Lemma groups_partition_witness :
  ["a/x.proto"; "a/z.proto"] <> []
  /\ ["a/x.proto"; "a/z.proto"] `sublist_of` ["a/x.proto"; "y.proto"; "a/z.proto"]
  /\ (exists d, "a/" = d ++ "/")
  /\ forall fd,
       fd ∈ ["a/x.proto"; "a/z.proto"]
       <-> fd ∈ ["a/x.proto"; "y.proto"; "a/z.proto"]
           /\ groupDir (C := Demo.collaborators) true fd = "a/".
Proof.
  apply (groups_partition (C := Demo.collaborators)
           ["a/x.proto"; "y.proto"; "a/z.proto"] true).
  reflexivity.
Defined.


Lemma Generate_success_witness :
  exists o customTemplate,
    ParseOptions (C := Demo.collaborators) Demo.twoDirs = Ok o
    /\ readCustomTemplate o = Ok customTemplate
    /\ Forall2 (entryOf o customTemplate)
         (Demo.descending (groupsOf Demo.twoDirs o))
         [{| Name := "b/index.html"; Content := "b/y.proto" |};
          {| Name := "a/index.html"; Content := "a/x.proto" |}]
    /\ Some 1%Z = Some (SupportedFeatures (C := Demo.collaborators)).
Proof.
  apply (Generate_success (C := Demo.collaborators) Demo.descending Demo.twoDirs
           {| File := [{| Name := "b/index.html"; Content := "b/y.proto" |};
                       {| Name := "a/index.html"; Content := "a/x.proto" |}];
              ResponseSupportedFeatures := Some 1%Z |}).
  vm_compute. reflexivity.
Defined.

Lemma Generate_nothing_to_render_witness :
  Generate (C := Demo.collaborators) Demo.descending
    (Demo.request "html,index.html,source_relative:proto$"
       ["a/broken.proto"; "b/y.proto"])
  = (Some {| File := []; ResponseSupportedFeatures := Some 1%Z |}, None).
Proof.
  apply (Generate_nothing_to_render (C := Demo.collaborators) Demo.descending
           (Demo.request "html,index.html,source_relative:proto$"
              ["a/broken.proto"; "b/y.proto"])
           (Build_PluginOptions (C := Demo.collaborators)
              Demo.HTML "" "index.html"
              [[Demo.Lit "p"; Demo.Lit "r"; Demo.Lit "o"; Demo.Lit "t"; Demo.Lit "o";
                Demo.EndText]] true) "").
  - exact descending_visits_all.
  - reflexivity.
  - reflexivity.
  - reflexivity.
Defined.

Lemma Generate_read_failure_witness :
  Generate (C := Demo.collaborators) Demo.ascending
    (Demo.request "missing.tmpl,index.html" ["a.proto"])
  = (None, Some (ReadFailure tt)).
Proof.
  apply (Generate_read_failure (C := Demo.collaborators) Demo.ascending
           (Demo.request "missing.tmpl,index.html" ["a.proto"]) tt).
  exists (Build_PluginOptions (C := Demo.collaborators)
            Demo.HTML "missing.tmpl" "index.html" [] false).
  split; [reflexivity|]. split; [discriminate | reflexivity].
Defined.

Lemma single_output_entry_witness :
  Generate (C := Demo.collaborators) Demo.descending
    (Demo.request "x.tmpl,doc/out.html:^vendor/" ["a/x.proto"; "vendor/v.proto"; "b/y.proto"])
  = (Some {| File := [{| Name := "out.html";
                         Content := "{{custom}}a/x.proto,b/y.proto" |}];
             ResponseSupportedFeatures := Some 1%Z |}, None).
Proof.
  apply (single_output_entry (C := Demo.collaborators) Demo.descending
           (Demo.request "x.tmpl,doc/out.html:^vendor/"
              ["a/x.proto"; "vendor/v.proto"; "b/y.proto"])
           (Build_PluginOptions (C := Demo.collaborators)
              Demo.HTML "x.tmpl" "out.html"
              [[Demo.BeginText; Demo.Lit "v"; Demo.Lit "e"; Demo.Lit "n";
                Demo.Lit "d"; Demo.Lit "o"; Demo.Lit "r"; Demo.Lit "/"]] false)
           "{{custom}}" "a/x.proto" ["b/y.proto"]).
  - exact descending_visits_all.
  - reflexivity.
  - reflexivity.
  - discriminate.
  - reflexivity.
  - reflexivity.
  - reflexivity.
Defined.

Lemma Split_Join_round_trip_witness :
  Split (Join ["html"; "out.html"; "default"] ",") "," = ["html"; "out.html"; "default"]
  /\ (Contains "html,out.html" "," = true <-> 2 <= List.length (Split "html,out.html" ",")).
Proof.
  destruct (Split_Join_round_trip ",") as (_ & Hsplit & _ & Hcount).
  split.
  - apply Hsplit; [discriminate | repeat constructor].
  - apply Hcount.
Defined.

Lemma filepath_Split_characterised_witness :
  filepath_Split "a/b/c.proto" = ("a/b/", "c.proto").
Proof.
  apply (filepath_Split_characterised "a/b/c.proto" "a/b/" "c.proto").
  split; [reflexivity|]. split; [reflexivity|]. right. by exists "a/b".
Defined.

Lemma path_Base_properties_witness :
  path_Base ("doc/out.html" ++ "/") = path_Base "doc/out.html".
Proof.
  apply (path_Base_properties "doc/out.html"). discriminate.
Defined.
